(** * QuadControl: the cascaded control law of a quadrotor

    A shallow embedding of [src/QuadControl.cpp].  Every method of the
    C++ class [QuadControl] is translated once, generically over the
    arithmetic it runs on (the classes [Arith], [Libm], [Trig] and
    [Common]), keeping the order of the operations of the source.  The
    translation is then read at two instances:

    - [Binary32]: IEEE-754 single precision, the C++ [float], built on the
      Standard Library's [SpecFloat]; it computes, with rounding to
      nearest even, signed zeros, infinities and NaN;
    - [Exact]: the real numbers, the arithmetic in which the control law
      is designed and in which its specification speaks of sums that
      cancel and of magnitudes that are equal.

    The object [this] is a record of the members the control law reads; a
    method that assigns the integral accumulator returns the object it
    leaves behind next to its result.

    Properties that depend only on the comparisons of the code are proved
    once, for every arithmetic that satisfies [OrderLaws], and so for both
    instances.  Algebraic properties are proved over [Exact], and say so:
    they hold of the floats up to the rounding of each operation, which is
    not bounded here, and where the code on floats departs from them the
    departure is computed over [Binary32].  What a zero divisor does is
    proved over [Binary32], the only one of the two that defines it. *)

From Stdlib Require Import ZArith List String Bool.
From Stdlib Require Import Reals Machin Lra Lia.
From Stdlib Require Import Floats.SpecFloat.
Import ListNotations.

Set Implicit Arguments.

(** ** The arithmetic interface *)

(** The operations of the C++ type [float] that the controller uses.
    [flt a b] is the comparison [a < b]; [a > b] is [flt b a]. *)
Class Arith (F : Type) := {
  fadd : F -> F -> F;
  fsub : F -> F -> F;
  fmul : F -> F -> F;
  fdiv : F -> F -> F;
  fneg : F -> F;
  flt : F -> F -> bool;
  ofZ : Z -> F
}.

(** The two functions of [<math.h>] that take and return a [float]. *)
Class Libm (F : Type) := {
  sqrtf : F -> F;
  fmodf : F -> F -> F
}.

(** [sin], used on the tilt limit only. *)
Class Trig (F : Type) := {
  sin : F -> F
}.

Declare Scope float_scope.
Delimit Scope float_scope with flt.
Infix "+" := fadd : float_scope.
Infix "-" := fsub : float_scope.
Infix "*" := fmul : float_scope.
Infix "/" := fdiv : float_scope.
Notation "- a" := (fneg a) : float_scope.
Notation "a <? b" := (flt a b) : float_scope.
Notation "a >? b" := (flt b a) : float_scope.

(** Modelled from the spec: the constants [F_PI] and [CONST_GRAVITY] of
    [Common.h], which is not part of the sources; the spec calls them pi and
    the gravitational constant. *)
Class Common (F : Type) := {
  F_PI : F;
  CONST_GRAVITY : F
}.

(** The order in which properties of results are stated.  In IEEE
    arithmetic no NaN is below or above anything, itself included, so that
    [fle a a] says that [a] is a number. *)
Class Order (F : Type) := {
  fle : F -> F -> Prop
}.

(** The laws that tie the order to the comparison [flt] of the code. *)
Class OrderLaws (F : Type) {A : Arith F} {O : Order F} : Prop := {
  flt_fle : forall a b, flt a b = true -> fle a b;
  fle_not_flt : forall a b, fle a b -> flt b a = false;
  not_flt_fle : forall a b, fle a a -> fle b b -> flt a b = false -> fle b a;
  fle_number : forall a b, fle a b -> fle a a /\ fle b b
}.
Arguments OrderLaws F {_ _}.

(** ** Vectors, matrices, attitude *)

Section Types.
Variable F : Type.

(** Modelled from the spec: the 3-vector [V3F] of [Math/V3F.h], which is
    not part of the sources: three [float] components. *)
Record V3F := mkV3F { x : F; y : F; z : F }.

(** Modelled from the spec: [Mat3x3F] of [Math/Mat3x3F.h]; [R i j] is the
    C++ element access [R(i,j)]. *)
Definition Mat3x3F := nat -> nat -> F.

(** The four motor thrusts [cmd.desiredThrustsN[0..3]] of a
    [VehicleCommand]: front left, front right, rear left, rear right. *)
Record VehicleCommand := mkCmd {
  thrust0 : F; thrust1 : F; thrust2 : F; thrust3 : F
}.

Definition desiredThrustsN (c : VehicleCommand) (i : nat) : F :=
  match i with
  | 0 => thrust0 c
  | 1 => thrust1 c
  | 2 => thrust2 c
  | _ => thrust3 c
  end.

End Types.

Arguments mkV3F {F} _ _ _.
Arguments x {F} _.
Arguments y {F} _.
Arguments z {F} _.
Arguments mkCmd {F} _ _ _ _.

(** Modelled from the spec: the two methods of [Quaternion<float>]
    ([Math/Quaternion.h], not part of the sources) that the controller
    calls: the rotation matrix of the attitude and its yaw angle. *)
Class QuaternionOps (F Quat : Type) := {
  RotationMatrix_IwrtB : Quat -> Mat3x3F F;
  Yaw : Quat -> F
}.

Section Program.
Context {F : Type} {A : Arith F} {M : Libm F} {T : Trig F} {C : Common F}.
Context {Quat : Type} {QO : QuaternionOps F Quat}.
Local Open Scope float_scope.

(** *** Common.h *)

(** Modelled from the spec: the macros [MIN], [MAX] and [CONSTRAIN] of
    [Common.h]; the spec calls [CONSTRAIN(a,low,high)] the clamp of [a] to
    [[low, high]].  [MAX(a,b)] is [a > b ? a : b], [MIN(a,b)] is
    [a < b ? a : b], [CONSTRAIN(a,low,high)] is [MAX(low, MIN(a, high))].
    On numbers with [low <= high] every clamp gives the same value; what a
    NaN becomes is decided by the order of the operands chosen here, which
    the spec does not fix. *)
Definition MAX (a b : F) : F := if a >? b then a else b.
Definition MIN (a b : F) : F := if a <? b then a else b.
Definition CONSTRAIN (a low high : F) : F := MAX low (MIN a high).

(** *** V3F *)

(** Modelled from the spec: the operators of [V3F] used by the controller:
    component-wise [+], [-], [*], scaling by a [float], the Euclidean
    magnitude [mag()] and the normalisation [norm()], which divides by the
    magnitude. *)
Definition V3F_add (a b : V3F F) : V3F F := mkV3F (x a + x b) (y a + y b) (z a + z b).
Definition V3F_sub (a b : V3F F) : V3F F := mkV3F (x a - x b) (y a - y b) (z a - z b).
Definition V3F_mul (a b : V3F F) : V3F F := mkV3F (x a * x b) (y a * y b) (z a * z b).
Definition V3F_scale (a : V3F F) (k : F) : V3F F := mkV3F (x a * k) (y a * k) (z a * k).
Definition mag (a : V3F F) : F := sqrtf (x a * x a + y a * y a + z a * z a).
Definition norm (a : V3F F) : V3F F :=
  let l := mag a in mkV3F (x a / l) (y a / l) (z a / l).

(** *** The controller object *)

(** A setpoint of the trajectory ([Trajectory.h]). *)
Record TrajectoryPoint := mkTrajectoryPoint {
  position : V3F F;
  velocity : V3F F;
  accel : V3F F;
  attitude : Quat
}.

(** The members of [QuadControl] and of its base class [BaseController]
    that the control law reads.  [integratedAltitudeError] is the only one
    of them that a control tick also updates.  The members [cmd] and
    [curTrajPoint] are not in the record: a tick assigns them (lines 84-92
    and 304) before it reads them, [Init] leaves them as they are, and
    they are local values of the methods here; so an equality of two
    records says nothing of these two members. *)
Record QuadControl := mkQuadControl {
  (* BaseController: configuration name, vehicle constants, estimate, trajectory *)
  _config : string;
  mass : F;
  L : F;
  kappa : F;
  Ixx : F;
  Iyy : F;
  Izz : F;
  estPos : V3F F;
  estVel : V3F F;
  estOmega : V3F F;
  estAtt : Quat;
  GetNextTrajectoryPoint : F -> TrajectoryPoint;
  (* QuadControl: gains and limits *)
  kpPosXY : F;
  kpPosZ : F;
  KiPosZ : F;
  kpVelXY : F;
  kpVelZ : F;
  kpBank : F;
  kpYaw : F;
  kpPQR : V3F F;
  maxDescentRate : F;
  maxAscentRate : F;
  maxSpeedXY : F;
  maxAccelXY : F;
  maxTiltAngle : F;
  minMotorThrust : F;
  maxMotorThrust : F;
  (* QuadControl: integral control *)
  integratedAltitudeError : F
}.

(** Modelled from the spec: the parameter store [SimpleConfig]
    ([Utility/SimpleConfig.h], not part of the sources):
    [Get key default] is the value stored under [key], or [default]. *)
Record ParamsHandle := mkParamsHandle {
  Get : string -> F -> F;
  GetV3F : string -> V3F F -> V3F F
}.

(** [QuadControl::Init] (simulator branch), applied to the object left by
    [BaseController::Init]. *)
Definition Init (config : ParamsHandle) (this : QuadControl) : QuadControl :=
  let c := _config this in
  {| _config := c;
     mass := mass this; L := L this; kappa := kappa this;
     Ixx := Ixx this; Iyy := Iyy this; Izz := Izz this;
     estPos := estPos this; estVel := estVel this;
     estOmega := estOmega this; estAtt := estAtt this;
     GetNextTrajectoryPoint := GetNextTrajectoryPoint this;
     kpPosXY := Get config (c ++ ".kpPosXY") (ofZ 0);
     kpPosZ := Get config (c ++ ".kpPosZ") (ofZ 0);
     KiPosZ := Get config (c ++ ".KiPosZ") (ofZ 0);
     kpVelXY := Get config (c ++ ".kpVelXY") (ofZ 0);
     kpVelZ := Get config (c ++ ".kpVelZ") (ofZ 0);
     kpBank := Get config (c ++ ".kpBank") (ofZ 0);
     kpYaw := Get config (c ++ ".kpYaw") (ofZ 0);
     kpPQR := GetV3F config (c ++ ".kpPQR") (mkV3F (ofZ 0) (ofZ 0) (ofZ 0));
     maxDescentRate := Get config (c ++ ".maxDescentRate") (ofZ 100);
     maxAscentRate := Get config (c ++ ".maxAscentRate") (ofZ 100);
     maxSpeedXY := Get config (c ++ ".maxSpeedXY") (ofZ 100);
     maxAccelXY := Get config (c ++ ".maxHorizAccel") (ofZ 100);
     maxTiltAngle := Get config (c ++ ".maxTiltAngle") (ofZ 100);
     minMotorThrust := Get config (c ++ ".minMotorThrust") (ofZ 0);
     maxMotorThrust := Get config (c ++ ".maxMotorThrust") (ofZ 100);
     integratedAltitudeError := ofZ 0 |}.

(** *** GenerateMotorCommands *)

(** Lines 68-87: the four motor thrusts as first written to
    [cmd.desiredThrustsN], before they are constrained. *)
Definition GenerateMotorCommands_mix (this : QuadControl)
    (collThrustCmd : F) (momentCmd : V3F F) : VehicleCommand F :=
  let l := L this / sqrtf (ofZ 2) in
  let t1 := x momentCmd / l in
  let t2 := y momentCmd / l in
  let t3 := (- z momentCmd) / kappa this in
  let t4 := collThrustCmd in
  mkCmd ((t1 + t2 + t3 + t4) / ofZ 4)
        ((- t1 + t2 - t3 + t4) / ofZ 4)
        ((t1 - t2 - t3 + t4) / ofZ 4)
        ((- t1 - t2 + t3 + t4) / ofZ 4).

(** Lines 89-94: each thrust constrained to the motor range. *)
Definition GenerateMotorCommands (this : QuadControl)
    (collThrustCmd : F) (momentCmd : V3F F) : VehicleCommand F :=
  let cmd := GenerateMotorCommands_mix this collThrustCmd momentCmd in
  mkCmd (CONSTRAIN (thrust0 cmd) (minMotorThrust this) (maxMotorThrust this))
        (CONSTRAIN (thrust1 cmd) (minMotorThrust this) (maxMotorThrust this))
        (CONSTRAIN (thrust2 cmd) (minMotorThrust this) (maxMotorThrust this))
        (CONSTRAIN (thrust3 cmd) (minMotorThrust this) (maxMotorThrust this)).

(** *** BodyRateControl *)

Definition BodyRateControl (this : QuadControl) (pqrCmd pqr : V3F F) : V3F F :=
  let I := mkV3F (Ixx this) (Iyy this) (Izz this) in
  let error := V3F_sub pqrCmd pqr in
  V3F_mul (V3F_mul I (kpPQR this)) error.

(** *** RollPitchControl *)

Definition RollPitchControl (this : QuadControl) (accelCmd : V3F F)
    (attitude : Quat) (collThrustCmd : F) : V3F F :=
  let R := RotationMatrix_IwrtB attitude in
  if collThrustCmd >? ofZ 0 then
    let c := (- collThrustCmd) / mass this in
    let b_x := CONSTRAIN (x accelCmd / c)
                 (- sin (maxTiltAngle this)) (sin (maxTiltAngle this)) in
    let b_y := CONSTRAIN (y accelCmd / c)
                 (- sin (maxTiltAngle this)) (sin (maxTiltAngle this)) in
    let b_x_d := kpBank this * (b_x - R 0%nat 2%nat) in
    let b_y_d := kpBank this * (b_y - R 1%nat 2%nat) in
    mkV3F ((R 1%nat 0%nat * b_x_d - R 0%nat 0%nat * b_y_d) / R 2%nat 2%nat)
          ((R 1%nat 1%nat * b_x_d - R 0%nat 1%nat * b_y_d) / R 2%nat 2%nat)
          (ofZ 0)
  else
    mkV3F (ofZ 0) (ofZ 0) (ofZ 0).

(** *** AltitudeControl *)

(** The object with its accumulator overwritten (line 188 is the only
    assignment to a member that the control law reads back). *)
Definition set_integratedAltitudeError (this : QuadControl) (v : F) : QuadControl :=
  {| _config := _config this;
     mass := mass this; L := L this; kappa := kappa this;
     Ixx := Ixx this; Iyy := Iyy this; Izz := Izz this;
     estPos := estPos this; estVel := estVel this;
     estOmega := estOmega this; estAtt := estAtt this;
     GetNextTrajectoryPoint := GetNextTrajectoryPoint this;
     kpPosXY := kpPosXY this; kpPosZ := kpPosZ this; KiPosZ := KiPosZ this;
     kpVelXY := kpVelXY this; kpVelZ := kpVelZ this;
     kpBank := kpBank this; kpYaw := kpYaw this; kpPQR := kpPQR this;
     maxDescentRate := maxDescentRate this;
     maxAscentRate := maxAscentRate this;
     maxSpeedXY := maxSpeedXY this; maxAccelXY := maxAccelXY this;
     maxTiltAngle := maxTiltAngle this;
     minMotorThrust := minMotorThrust this;
     maxMotorThrust := maxMotorThrust this;
     integratedAltitudeError := v |}.

(** [AltitudeControl] returns the thrust together with the object it
    leaves behind, whose accumulator has been updated. *)
Definition AltitudeControl (this : QuadControl)
    (posZCmd velZCmd posZ velZ : F) (attitude : Quat) (accelZCmd dt : F)
    : F * QuadControl :=
  let R := RotationMatrix_IwrtB attitude in
  let zErr := posZCmd - posZ in
  let pTerm := kpPosZ this * zErr in
  let z_dot_err := velZCmd - velZ in
  let this := set_integratedAltitudeError this
                (integratedAltitudeError this + zErr * dt) in
  let dTerm := kpVelZ this * z_dot_err + velZ in
  let iTerm := KiPosZ this * integratedAltitudeError this in
  let b_z := R 2%nat 2%nat in
  let u_1_bar := pTerm + dTerm + iTerm + accelZCmd in
  let acc := (u_1_bar - CONST_GRAVITY) / b_z in
  let thrust :=
    (- mass this) * CONSTRAIN acc ((- maxAscentRate this) / dt)
                                  (maxAscentRate this / dt) in
  (thrust, this).

(** *** LateralPositionControl *)

(** Lines 223 and 241-249: the velocity command that enters the control
    sum, the desired velocity with its Z component cleared and its
    magnitude capped. *)
Definition LateralPositionControl_capVelCmd (this : QuadControl)
    (velCmd : V3F F) : V3F F :=
  let velCmd := mkV3F (x velCmd) (y velCmd) (ofZ 0) in
  if mag velCmd >? maxSpeedXY this then
    V3F_scale (norm velCmd) (maxSpeedXY this)
  else
    velCmd.

Definition LateralPositionControl (this : QuadControl)
    (posCmd velCmd pos vel accelCmdFF : V3F F) : V3F F :=
  let accelCmdFF := mkV3F (x accelCmdFF) (y accelCmdFF) (ofZ 0) in
  let posCmd := mkV3F (x posCmd) (y posCmd) (z pos) in
  let accelCmd := accelCmdFF in
  let kpPos := mkV3F (kpPosXY this) (kpPosXY this) (ofZ 0) in
  let kpVel := mkV3F (kpVelXY this) (kpVelXY this) (ofZ 0) in
  let capVelCmd := LateralPositionControl_capVelCmd this velCmd in
  let accelCmd :=
    V3F_add (V3F_add (V3F_mul kpPos (V3F_sub posCmd pos))
                     (V3F_mul kpVel (V3F_sub capVelCmd vel)))
            accelCmd in
  if mag accelCmd >? maxAccelXY this then
    V3F_scale (norm accelCmd) (maxAccelXY this)
  else
    accelCmd.

(** *** YawControl *)

(** Lines 274-294: the yaw error [err] that is multiplied by the gain. *)
Definition YawControl_err (yawCmd yaw : F) : F :=
  let yawCmdToPi :=
    if yawCmd >? ofZ 0 then fmodf yawCmd (ofZ 2 * F_PI)
    else - fmodf (- yawCmd) (ofZ 2 * F_PI) in
  let err := yawCmdToPi - yaw in
  let err := if err >? F_PI then err - ofZ 2 * F_PI else err in
  let err := if err <? - F_PI then err + ofZ 2 * F_PI else err in
  err.

Definition YawControl (this : QuadControl) (yawCmd yaw : F) : F :=
  kpYaw this * YawControl_err yawCmd yaw.

(** *** RunControl *)

(** The literal [.1f]: the quotient of 1 by 10 in the arithmetic at hand
    (in binary32 the correctly rounded quotient is the [float] nearest to
    one tenth). *)
Definition lit_0_1 : F := ofZ 1 / ofZ 10.

(** One control tick: the motor command and the object left behind. *)
Definition RunControl (this : QuadControl) (dt simTime : F)
    : VehicleCommand F * QuadControl :=
  let curTrajPoint := GetNextTrajectoryPoint this simTime in
  let '(collThrustCmd, this) :=
    AltitudeControl this (z (position curTrajPoint)) (z (velocity curTrajPoint))
      (z (estPos this)) (z (estVel this)) (estAtt this)
      (z (accel curTrajPoint)) dt in
  let thrustMargin := lit_0_1 * (maxMotorThrust this - minMotorThrust this) in
  let collThrustCmd :=
    CONSTRAIN collThrustCmd
      ((minMotorThrust this + thrustMargin) * ofZ 4)
      ((maxMotorThrust this - thrustMargin) * ofZ 4) in
  let desAcc :=
    LateralPositionControl this (position curTrajPoint) (velocity curTrajPoint)
      (estPos this) (estVel this) (accel curTrajPoint) in
  let desOmega := RollPitchControl this desAcc (estAtt this) collThrustCmd in
  let desOmega :=
    mkV3F (x desOmega) (y desOmega)
          (YawControl this (Yaw (attitude curTrajPoint)) (Yaw (estAtt this))) in
  let desMoment := BodyRateControl this desOmega (estOmega this) in
  (GenerateMotorCommands this collThrustCmd desMoment, this).

End Program.

Arguments TrajectoryPoint : clear implicits.
Arguments QuadControl : clear implicits.
Arguments ParamsHandle : clear implicits.

(** An attitude given by its rotation matrix and its yaw angle: the
    representation used to run the controller on concrete inputs. *)
Definition MatYaw (F : Type) : Type := (Mat3x3F F * F)%type.

#[global] Instance MatYaw_ops (F : Type) : QuaternionOps F (MatYaw F) := {|
  RotationMatrix_IwrtB := fun q => fst q;
  Yaw := fun q => snd q
|}.

(** ** What the specification compares the code with *)

Section Specification.
Context {F : Type} {A : Arith F} {C : Common F}.
Context {Quat : Type} {QO : QuaternionOps F Quat}.
Local Open Scope float_scope.

(** The same object with another value of [maxDescentRate]. *)
Definition set_maxDescentRate (this : QuadControl F Quat) (v : F)
    : QuadControl F Quat :=
  {| _config := _config this;
     mass := mass this; L := L this; kappa := kappa this;
     Ixx := Ixx this; Iyy := Iyy this; Izz := Izz this;
     estPos := estPos this; estVel := estVel this;
     estOmega := estOmega this; estAtt := estAtt this;
     GetNextTrajectoryPoint := GetNextTrajectoryPoint this;
     kpPosXY := kpPosXY this; kpPosZ := kpPosZ this; KiPosZ := KiPosZ this;
     kpVelXY := kpVelXY this; kpVelZ := kpVelZ this;
     kpBank := kpBank this; kpYaw := kpYaw this; kpPQR := kpPQR this;
     maxDescentRate := v;
     maxAscentRate := maxAscentRate this;
     maxSpeedXY := maxSpeedXY this; maxAccelXY := maxAccelXY this;
     maxTiltAngle := maxTiltAngle this;
     minMotorThrust := minMotorThrust this;
     maxMotorThrust := maxMotorThrust this;
     integratedAltitudeError := integratedAltitudeError this |}.

(** The same object with another arm length [L], a constant of the
    vehicle that [BaseController] holds. *)
Definition set_L (this : QuadControl F Quat) (v : F) : QuadControl F Quat :=
  {| _config := _config this;
     mass := mass this; L := v; kappa := kappa this;
     Ixx := Ixx this; Iyy := Iyy this; Izz := Izz this;
     estPos := estPos this; estVel := estVel this;
     estOmega := estOmega this; estAtt := estAtt this;
     GetNextTrajectoryPoint := GetNextTrajectoryPoint this;
     kpPosXY := kpPosXY this; kpPosZ := kpPosZ this; KiPosZ := KiPosZ this;
     kpVelXY := kpVelXY this; kpVelZ := kpVelZ this;
     kpBank := kpBank this; kpYaw := kpYaw this; kpPQR := kpPQR this;
     maxDescentRate := maxDescentRate this;
     maxAscentRate := maxAscentRate this;
     maxSpeedXY := maxSpeedXY this; maxAccelXY := maxAccelXY this;
     maxTiltAngle := maxTiltAngle this;
     minMotorThrust := minMotorThrust this;
     maxMotorThrust := maxMotorThrust this;
     integratedAltitudeError := integratedAltitudeError this |}.

(** The thrust of the altitude controller as the specification words it:
    the sum of the proportional, derivative-like, integral and
    feed-forward terms is divided by [R(2,2)], and the gravitational
    constant is subtracted from the quotient. *)
Definition AltitudeControl_spec (this : QuadControl F Quat)
    (posZCmd velZCmd posZ velZ : F) (attitude : Quat) (accelZCmd dt : F) : F :=
  let R := RotationMatrix_IwrtB attitude in
  let zErr := posZCmd - posZ in
  let pTerm := kpPosZ this * zErr in
  let dTerm := kpVelZ this * (velZCmd - velZ) + velZ in
  let iTerm := KiPosZ this * (integratedAltitudeError this + zErr * dt) in
  let sum := pTerm + dTerm + iTerm + accelZCmd in
  let acc := sum / R 2%nat 2%nat - CONST_GRAVITY in
  (- mass this) * CONSTRAIN acc ((- maxAscentRate this) / dt)
                                (maxAscentRate this / dt).

(** Lines 184-195: the commanded acceleration [acc] that
    [AltitudeControl] goes on to constrain. *)
Definition AltitudeControl_acc (this : QuadControl F Quat)
    (posZCmd velZCmd posZ velZ : F) (attitude : Quat) (accelZCmd dt : F) : F :=
  let R := RotationMatrix_IwrtB attitude in
  let zErr := posZCmd - posZ in
  let pTerm := kpPosZ this * zErr in
  let z_dot_err := velZCmd - velZ in
  let integrated := integratedAltitudeError this + zErr * dt in
  let dTerm := kpVelZ this * z_dot_err + velZ in
  let iTerm := KiPosZ this * integrated in
  let b_z := R 2%nat 2%nat in
  let u_1_bar := pTerm + dTerm + iTerm + accelZCmd in
  (u_1_bar - CONST_GRAVITY) / b_z.

(** The arguments of one call of [AltitudeControl], the tick duration
    apart. *)
Record AltitudeInput := mkAltitudeInput {
  in_posZCmd : F;
  in_velZCmd : F;
  in_posZ : F;
  in_velZ : F;
  in_attitude : Quat;
  in_accelZCmd : F
}.

(** The object after consecutive calls of [AltitudeControl], one for each
    input of the list, all with the tick duration [dt]. *)
Fixpoint AltitudeTicks (this : QuadControl F Quat) (dt : F)
    (inputs : list AltitudeInput) : QuadControl F Quat :=
  match inputs with
  | [] => this
  | i :: rest =>
      AltitudeTicks
        (snd (AltitudeControl this (in_posZCmd i) (in_velZCmd i) (in_posZ i)
                (in_velZ i) (in_attitude i) (in_accelZCmd i) dt))
        dt rest
  end.

End Specification.

Arguments AltitudeInput : clear implicits.

(** ** A vehicle to run the controller on *)

Section Scenario.
Context {F : Type} {A : Arith F}.
Local Open Scope float_scope.

(** The decimal literal [n / d]: in binary32 the float nearest to it, the
    quotient of two integers that are floats being correctly rounded. *)
Definition dec (n d : Z) : F := ofZ n / ofZ d.

Definition V3F_zero : V3F F := mkV3F (ofZ 0) (ofZ 0) (ofZ 0).

(** Level attitude, heading north. *)
Definition level : MatYaw F :=
  (fun i j => if Nat.eqb i j then ofZ 1 else ofZ 0, ofZ 0).

(** An attitude banked by 60 degrees, of which the controller under test
    reads the element (2,2) only: the cosine of the bank, one half. *)
Definition banked : MatYaw F :=
  (fun i j => if Nat.eqb i j then (if Nat.eqb i 0 then ofZ 1 else dec 1 2)
              else ofZ 0, ofZ 0).

(** Hovering one metre above the origin (Z points down). *)
Definition hover : TrajectoryPoint F (MatYaw F) :=
  {| position := mkV3F (ofZ 0) (ofZ 0) (ofZ (-1));
     velocity := V3F_zero;
     accel := V3F_zero;
     attitude := level |}.

(** A parameter file: the values stored under the keys of the scalar and
    of the vector parameters. *)
Definition lookup {V : Type} (l : list (string * V)) (key : string) (default : V) : V :=
  match find (fun kv => String.eqb (fst kv) key) l with
  | Some kv => snd kv
  | None => default
  end.

Definition config_of (scalars : list (string * F))
    (vectors : list (string * V3F F)) : ParamsHandle F :=
  {| Get := lookup scalars; GetV3F := lookup vectors |}.

Definition QuadControlParams : list (string * F) :=
  [ ("QuadControlParams.kpPosXY", ofZ 30);
    ("QuadControlParams.kpPosZ", ofZ 20);
    ("QuadControlParams.KiPosZ", ofZ 40);
    ("QuadControlParams.kpVelXY", ofZ 13);
    ("QuadControlParams.kpVelZ", ofZ 9);
    ("QuadControlParams.kpBank", ofZ 12);
    ("QuadControlParams.kpYaw", ofZ 2);
    ("QuadControlParams.maxDescentRate", ofZ 2);
    ("QuadControlParams.maxAscentRate", ofZ 5);
    ("QuadControlParams.maxSpeedXY", ofZ 5);
    ("QuadControlParams.maxHorizAccel", ofZ 12);
    ("QuadControlParams.maxTiltAngle", dec 7 10);
    ("QuadControlParams.minMotorThrust", dec 1 10);
    ("QuadControlParams.maxMotorThrust", dec 45 10) ]%string.

Definition QuadControlParamsV3F : list (string * V3F F) :=
  [ ("QuadControlParams.kpPQR", mkV3F (ofZ 70) (ofZ 70) (ofZ 15)) ]%string.

(** The object left by [BaseController::Init]: the vehicle of the spec's
    end-to-end scenario (mass 0.5 kg, arm 0.17 m, kappa 0.016), at rest on
    its setpoint; the members that [QuadControl::Init] assigns are zero. *)
Definition base : QuadControl F (MatYaw F) :=
  {| _config := "QuadControlParams";
     mass := dec 5 10; L := dec 17 100; kappa := dec 16 1000;
     Ixx := dec 23 10000; Iyy := dec 23 10000; Izz := dec 46 10000;
     estPos := mkV3F (ofZ 0) (ofZ 0) (ofZ (-1));
     estVel := V3F_zero;
     estOmega := V3F_zero;
     estAtt := level;
     GetNextTrajectoryPoint := fun _ => hover;
     kpPosXY := ofZ 0; kpPosZ := ofZ 0; KiPosZ := ofZ 0;
     kpVelXY := ofZ 0; kpVelZ := ofZ 0;
     kpBank := ofZ 0; kpYaw := ofZ 0;
     kpPQR := V3F_zero;
     maxDescentRate := ofZ 0;
     maxAscentRate := ofZ 0;
     maxSpeedXY := ofZ 0; maxAccelXY := ofZ 0;
     maxTiltAngle := ofZ 0;
     minMotorThrust := ofZ 0;
     maxMotorThrust := ofZ 0;
     integratedAltitudeError := ofZ 0 |}.

(** The vehicle initialised from the parameter file, and from a parameter
    file that overrides some scalar parameters. *)
Definition vehicle_with (overrides : list (string * F)) : QuadControl F (MatYaw F) :=
  Init (config_of (overrides ++ QuadControlParams) QuadControlParamsV3F) base.

Definition vehicle : QuadControl F (MatYaw F) := vehicle_with [].

End Scenario.

(** ** IEEE-754 single precision *)

Module Binary32.

Definition prec : Z := 24.
Definition emax : Z := 128.

(** A C++ [float]. *)
Definition float32 : Type := spec_float.

Definition is_nan (a : float32) : bool :=
  match a with S754_nan => true | _ => false end.

Definition is_finite (a : float32) : bool :=
  match a with S754_zero _ | S754_finite _ _ _ => true | _ => false end.

Definition is_zero (a : float32) : bool :=
  match a with S754_zero _ => true | _ => false end.

(** A number other than zero: finite and not zero, or infinite. *)
Definition is_nonzero (a : float32) : bool :=
  match a with S754_finite _ _ _ | S754_infinity _ => true | _ => false end.

(** Equal as numbers: the same float, or two zeros, whose signs the
    comparison [==] of C++ does not tell apart. *)
Definition same_number (a b : float32) : Prop :=
  a = b \/ (is_zero a = true /\ is_zero b = true).

(** The real number that a finite float stands for. *)
Definition to_R (a : float32) : R :=
  match a with
  | S754_finite s m e => (IZR (cond_Zopp s (Zpos m)) * powerRZ 2 e)%R
  | _ => 0%R
  end.

(** Conversion of an integer, rounded to nearest even. *)
Definition of_Z (n : Z) : float32 := binary_normalize prec emax n 0 false.

(** [fmodf]: the remainder of the truncated quotient, which is exact and
    has the sign of the dividend. *)
Definition fmod32 (a b : float32) : float32 :=
  match a, b with
  | S754_nan, _ | _, S754_nan => S754_nan
  | S754_infinity _, _ => S754_nan
  | _, S754_zero _ => S754_nan
  | S754_zero _, _ => a
  | S754_finite _ _ _, S754_infinity _ => a
  | S754_finite sa ma ea, S754_finite _ mb eb =>
      let e := Z.min ea eb in
      let na := Zpos (fst (shl_align ma ea e)) in
      let nb := Zpos (fst (shl_align mb eb e)) in
      binary_normalize prec emax (cond_Zopp sa (Z.modulo na nb)) e sa
  end.

#[global] Instance arith32 : Arith float32 := {|
  fadd := SFadd prec emax;
  fsub := SFsub prec emax;
  fmul := SFmul prec emax;
  fdiv := SFdiv prec emax;
  fneg := SFopp;
  flt := SFltb;
  ofZ := of_Z
|}.

#[global] Instance libm32 : Libm float32 := {|
  sqrtf := SFsqrt prec emax;
  fmodf := fmod32
|}.

(** [F_PI] is the [float] nearest to pi, [CONST_GRAVITY] is [9.81f]. *)
#[global] Instance common32 : Common float32 := {|
  F_PI := S754_finite false 13176795 (-22);
  CONST_GRAVITY := S754_finite false 10286531 (-20)
|}.

(** The order of the numbers: [SFleb], which no NaN satisfies. *)
Definition le32 (a b : float32) : Prop := SFleb a b = true.

#[global] Instance order32 : Order float32 := {| fle := le32 |}.

End Binary32.

(** ** Exact arithmetic *)

Module Exact.

Definition Rltb (a b : R) : bool := if Rlt_dec a b then true else false.

(** Truncation towards zero. *)
Definition Rtrunc (r : R) : Z :=
  if Rle_dec 0 r then Int_part r else (- Int_part (- r))%Z.

(** [fmod]: [a - n * b], where [n] is the quotient [a / b] truncated
    towards zero. *)
Definition fmodR (a b : R) : R := (a - IZR (Rtrunc (a / b)) * b)%R.

#[global] Instance arithR : Arith R := {|
  fadd := Rplus;
  fsub := Rminus;
  fmul := Rmult;
  fdiv := Rdiv;
  fneg := Ropp;
  flt := Rltb;
  ofZ := IZR
|}.

#[global] Instance libmR : Libm R := {|
  sqrtf := R_sqrt.sqrt;
  fmodf := fmodR
|}.

#[global] Instance trigR : Trig R := {|
  sin := Rtrigo_def.sin
|}.

#[global] Instance commonR : Common R := {|
  F_PI := PI;
  CONST_GRAVITY := (981 / 100)%R
|}.

#[global] Instance orderR : Order R := {| fle := Rle |}.

End Exact.


(** ** Intermediate values of the controllers *)

Section Intermediate.
Context {F : Type} {A : Arith F} {M : Libm F} {T : Trig F} {C : Common F}.
Context {Quat : Type} {QO : QuaternionOps F Quat}.
Local Open Scope float_scope.

(** Lines 304-310 of [RunControl]: the collective thrust command once the
    thrust margin has been reserved, as it is passed to the attitude
    controller and to the mixer. *)
Definition RunControl_collThrustCmd (this : QuadControl F Quat)
    (dt simTime : F) : F :=
  let curTrajPoint := GetNextTrajectoryPoint this simTime in
  let '(collThrustCmd, this) :=
    AltitudeControl this (z (position curTrajPoint)) (z (velocity curTrajPoint))
      (z (estPos this)) (z (estVel this)) (estAtt this)
      (z (accel curTrajPoint)) dt in
  let thrustMargin := lit_0_1 * (maxMotorThrust this - minMotorThrust this) in
  CONSTRAIN collThrustCmd
    ((minMotorThrust this + thrustMargin) * ofZ 4)
    ((maxMotorThrust this - thrustMargin) * ofZ 4).

(** Lines 312-317 of [RunControl]: the desired moment passed to the
    mixer. *)
Definition RunControl_desMoment (this : QuadControl F Quat)
    (dt simTime : F) : V3F F :=
  let curTrajPoint := GetNextTrajectoryPoint this simTime in
  let collThrustCmd := RunControl_collThrustCmd this dt simTime in
  let desAcc :=
    LateralPositionControl this (position curTrajPoint) (velocity curTrajPoint)
      (estPos this) (estVel this) (accel curTrajPoint) in
  let desOmega := RollPitchControl this desAcc (estAtt this) collThrustCmd in
  let desOmega :=
    mkV3F (x desOmega) (y desOmega)
          (YawControl this (Yaw (attitude curTrajPoint)) (Yaw (estAtt this))) in
  BodyRateControl this desOmega (estOmega this).

(** Lines 222-251 of [LateralPositionControl]: the acceleration command
    before its magnitude is capped. *)
Definition LateralPositionControl_accelCmd (this : QuadControl F Quat)
    (posCmd velCmd pos vel accelCmdFF : V3F F) : V3F F :=
  let accelCmdFF := mkV3F (x accelCmdFF) (y accelCmdFF) (ofZ 0) in
  let posCmd := mkV3F (x posCmd) (y posCmd) (z pos) in
  let accelCmd := accelCmdFF in
  let kpPos := mkV3F (kpPosXY this) (kpPosXY this) (ofZ 0) in
  let kpVel := mkV3F (kpVelXY this) (kpVelXY this) (ofZ 0) in
  let capVelCmd := LateralPositionControl_capVelCmd this velCmd in
  V3F_add (V3F_add (V3F_mul kpPos (V3F_sub posCmd pos))
                   (V3F_mul kpVel (V3F_sub capVelCmd vel)))
          accelCmd.

(** Lines 275-283 of [YawControl]: the desired yaw once wrapped. *)
Definition YawControl_yawCmdToPi (yawCmd : F) : F :=
  if yawCmd >? ofZ 0 then fmodf yawCmd (ofZ 2 * F_PI)
  else - fmodf (- yawCmd) (ofZ 2 * F_PI).

(** The sum of the altitude errors [posZCmd - posZ] of a list of calls. *)
Fixpoint AltitudeErrorSum (inputs : list (AltitudeInput F Quat)) : F :=
  match inputs with
  | [] => ofZ 0
  | i :: rest => (in_posZCmd i - in_posZ i) + AltitudeErrorSum rest
  end.

End Intermediate.

(** * Properties *)

(** ** The order laws hold in both arithmetics *)

Module Binary32Order.
Import Binary32.

Lemma SFcompare_antisym (a b : float32) :
  SFcompare b a = option_map CompOpp (SFcompare a b).
Proof.
  destruct a as [sa|sa| |sa ma ea], b as [sb|sb| |sb mb eb]; simpl;
    try reflexivity; try (destruct sa; reflexivity);
    try (destruct sb; reflexivity);
    try (destruct sa, sb; reflexivity).
  destruct sa, sb; simpl; try reflexivity;
    rewrite (Z.compare_antisym ea eb);
    destruct (ea ?= eb)%Z; simpl; try reflexivity;
    rewrite (Pos.compare_cont_antisym ma mb Eq); reflexivity.
Qed.

Lemma SFcompare_refl (a : float32) :
  is_nan a = false -> SFcompare a a = Some Eq.
Proof.
  destruct a as [sa|sa| |sa ma ea]; simpl; intros Hn;
    try reflexivity; try discriminate; try (destruct sa; reflexivity).
  rewrite Z.compare_refl, Pos.compare_cont_refl. destruct sa; reflexivity.
Qed.

Lemma SFcompare_nan (a b : float32) :
  SFcompare a b = None <-> is_nan a = true \/ is_nan b = true.
Proof.
  destruct a as [sa|sa| |sa ma ea], b as [sb|sb| |sb mb eb]; simpl;
    split; intros Hc; auto; try discriminate;
    try (destruct Hc; discriminate);
    try (destruct sa; discriminate); try (destruct sb; discriminate).
Qed.

Lemma le32_not_nan (a b : float32) :
  le32 a b -> is_nan a = false /\ is_nan b = false.
Proof.
  unfold le32, SFleb. intros Hle.
  destruct a, b; simpl in *; auto; discriminate.
Qed.

Lemma le32_refl (a : float32) : is_nan a = false -> le32 a a.
Proof.
  intros Hn. unfold le32, SFleb. now rewrite SFcompare_refl.
Qed.

Lemma lt32_le32 (a b : float32) : SFltb a b = true -> le32 a b.
Proof.
  unfold le32, SFleb, SFltb.
  destruct (SFcompare a b) as [[]|]; congruence.
Qed.

Lemma le32_not_lt32 (a b : float32) : le32 a b -> SFltb b a = false.
Proof.
  unfold le32, SFleb, SFltb.
  rewrite (SFcompare_antisym a b).
  destruct (SFcompare a b) as [[]|]; simpl; congruence.
Qed.

Lemma not_lt32_le32 (a b : float32) :
  le32 a a -> le32 b b -> SFltb a b = false -> le32 b a.
Proof.
  intros Ha Hb. apply le32_not_nan in Ha, Hb.
  unfold le32, SFleb, SFltb.
  rewrite (SFcompare_antisym a b).
  destruct (SFcompare a b) as [[]|] eqn:Hc; simpl; try congruence.
  apply SFcompare_nan in Hc. destruct Ha, Hb, Hc; congruence.
Qed.

Lemma le32_number (a b : float32) : le32 a b -> le32 a a /\ le32 b b.
Proof.
  intros Hle. apply le32_not_nan in Hle.
  split; apply le32_refl; tauto.
Qed.

#[global] Instance order_laws32 : OrderLaws float32.
Proof.
  split.
  - exact lt32_le32.
  - exact le32_not_lt32.
  - exact not_lt32_le32.
  - exact le32_number.
Qed.

End Binary32Order.

Module ExactOrder.
Import Exact.

Lemma Rltb_true (a b : R) : Rltb a b = true <-> (a < b)%R.
Proof. unfold Rltb. destruct (Rlt_dec a b); split; intros; auto; discriminate. Qed.

Lemma Rltb_false (a b : R) : Rltb a b = false <-> (b <= a)%R.
Proof.
  unfold Rltb. destruct (Rlt_dec a b); split; intros; auto; try discriminate; lra.
Qed.

Lemma Rltb_Rle (a b : R) : Rltb a b = true -> (a <= b)%R.
Proof. intros Hlt. apply Rltb_true in Hlt. lra. Qed.

Lemma Rle_not_Rltb (a b : R) : (a <= b)%R -> Rltb b a = false.
Proof. intros Hle. now apply Rltb_false. Qed.

Lemma not_Rltb_Rle (a b : R) :
  (a <= a)%R -> (b <= b)%R -> Rltb a b = false -> (b <= a)%R.
Proof. intros _ _ Hlt. now apply Rltb_false in Hlt. Qed.

Lemma Rle_number (a b : R) : (a <= b)%R -> (a <= a)%R /\ (b <= b)%R.
Proof. intros _. split; apply Rle_refl. Qed.

#[global] Instance order_lawsR : OrderLaws R.
Proof.
  split.
  - exact Rltb_Rle.
  - exact Rle_not_Rltb.
  - exact not_Rltb_Rle.
  - exact Rle_number.
Qed.

End ExactOrder.

(** ** Saturation *)

Section Saturation.
Context {F : Type} {A : Arith F} {O : Order F} {OL : OrderLaws F}.

(** [CONSTRAIN] lands in the range it is given, whatever it is applied
    to: a NaN included. *)
Lemma CONSTRAIN_range (a low high : F) :
  fle low high ->
  fle low (CONSTRAIN a low high) /\ fle (CONSTRAIN a low high) high.
Proof.
  intros Hlh. destruct (fle_number _ _ Hlh) as [Hl Hh].
  unfold CONSTRAIN, MAX, MIN.
  destruct (flt a high) eqn:Hah.
  - destruct (flt a low) eqn:Hal.
    + split; assumption.
    + pose proof (flt_fle _ _ Hah) as Hle.
      destruct (fle_number _ _ Hle) as [Ha _].
      split; [apply not_flt_fle|]; assumption.
  - rewrite (fle_not_flt _ _ Hlh). split; assumption.
Qed.

End Saturation.

(** C1. For every collective thrust command and every moment command, if
    minMotorThrust <= maxMotorThrust then each of the four motor thrusts
    returned by GenerateMotorCommands lies within
    [minMotorThrust, maxMotorThrust].  This holds in every arithmetic
    that satisfies the order laws, IEEE single precision with its NaN and
    infinities included. *)
Theorem GenerateMotorCommands_in_range
    {F : Type} {A : Arith F} {M : Libm F} {O : Order F} {OL : OrderLaws F}
    {Quat : Type} (this : QuadControl F Quat)
    (collThrustCmd : F) (momentCmd : V3F F) (i : nat) :
  fle (minMotorThrust this) (maxMotorThrust this) ->
  fle (minMotorThrust this)
      (desiredThrustsN (GenerateMotorCommands this collThrustCmd momentCmd) i) /\
  fle (desiredThrustsN (GenerateMotorCommands this collThrustCmd momentCmd) i)
      (maxMotorThrust this).
Proof.
  intros Hlh. unfold GenerateMotorCommands.
  destruct i as [|[|[|i]]]; simpl; apply CONSTRAIN_range; assumption.
Qed.

(** The range holds on the scenario vehicle in single precision, for a
    thrust of 4.5 N and a moment whose roll component is not a number. *)
Lemma GenerateMotorCommands_in_range_witness :
  let cmd := GenerateMotorCommands (vehicle (F:=Binary32.float32))
               (dec 45 10) (mkV3F S754_nan (ofZ 0) (ofZ 0)) in
  fle (minMotorThrust (vehicle (F:=Binary32.float32))) (desiredThrustsN cmd 0) /\
  fle (desiredThrustsN cmd 0) (maxMotorThrust (vehicle (F:=Binary32.float32))).
Proof.
  apply (GenerateMotorCommands_in_range (vehicle (F:=Binary32.float32))
           (dec 45 10) (mkV3F S754_nan (ofZ 0) (ofZ 0)) 0).
  vm_compute. reflexivity.
Defined.

(** ** Attitude control on the ground *)

(** C5. For every desired acceleration and every attitude, if the
    collective thrust command passed to RollPitchControl is less than or
    equal to 0, the returned body-rate vector is exactly (0, 0, 0). *)
Theorem RollPitchControl_no_thrust
    {F : Type} {A : Arith F} {T : Trig F} {O : Order F} {OL : OrderLaws F}
    {Quat : Type} {QO : QuaternionOps F Quat} (this : QuadControl F Quat)
    (accelCmd : V3F F) (attitude : Quat) (collThrustCmd : F) :
  fle collThrustCmd (ofZ 0) ->
  RollPitchControl this accelCmd attitude collThrustCmd
  = mkV3F (ofZ 0) (ofZ 0) (ofZ 0).
Proof.
  intros Hle. unfold RollPitchControl.
  rewrite (fle_not_flt _ _ Hle). reflexivity.
Qed.

(** On the scenario vehicle, a thrust command of 0 N gives zero rates
    for a desired acceleration of (3, -4, 0) m/s2. *)
Lemma RollPitchControl_no_thrust_witness :
  RollPitchControl (vehicle (F:=R)) (mkV3F 3 (-4) 0)%R level 0%R
  = mkV3F 0%R 0%R 0%R.
Proof.
  refine (RollPitchControl_no_thrust (vehicle (F:=R)) (mkV3F 3 (-4) 0)%R
            level 0%R _).
  simpl. lra.
Defined.

(** In single precision a thrust command that is not a number gives zero
    rates as well: the comparison [collThrustCmd > 0] fails. *)
Lemma RollPitchControl_nan_thrust
    {T : Trig Binary32.float32} {Quat : Type}
    {QO : QuaternionOps Binary32.float32 Quat}
    (this : QuadControl Binary32.float32 Quat)
    (accelCmd : V3F Binary32.float32) (attitude : Quat) :
  RollPitchControl this accelCmd attitude S754_nan
  = mkV3F (ofZ 0) (ofZ 0) (ofZ 0).
Proof. reflexivity. Qed.

(** ** The descent rate limit *)

(** C9. The value of maxDescentRate has no effect on any output: two
    objects that differ only in maxDescentRate return the same thrust from
    AltitudeControl and the same motor command from RunControl, for the
    same arguments, and the objects they leave behind (the accumulator
    included) again differ only in maxDescentRate.  The vertical
    saturation bounds are (-maxAscentRate)/dt and maxAscentRate/dt:
    symmetric, and in maxAscentRate alone. *)
Theorem maxDescentRate_unused
    {F : Type} {A : Arith F} {M : Libm F} {T : Trig F} {C : Common F}
    {Quat : Type} {QO : QuaternionOps F Quat} (this : QuadControl F Quat)
    (v : F) (posZCmd velZCmd posZ velZ : F) (attitude : Quat)
    (accelZCmd dt simTime : F) :
  AltitudeControl (set_maxDescentRate this v)
    posZCmd velZCmd posZ velZ attitude accelZCmd dt
  = (fst (AltitudeControl this posZCmd velZCmd posZ velZ attitude accelZCmd dt),
     set_maxDescentRate
       (snd (AltitudeControl this posZCmd velZCmd posZ velZ attitude accelZCmd dt))
       v) /\
  RunControl (set_maxDescentRate this v) dt simTime
  = (fst (RunControl this dt simTime),
     set_maxDescentRate (snd (RunControl this dt simTime)) v) /\
  fst (AltitudeControl this posZCmd velZCmd posZ velZ attitude accelZCmd dt)
  = fmul (fneg (mass this))
      (CONSTRAIN
         (AltitudeControl_acc this posZCmd velZCmd posZ velZ attitude accelZCmd dt)
         (fdiv (fneg (maxAscentRate this)) dt)
         (fdiv (maxAscentRate this) dt)).
Proof.
  repeat split; reflexivity.
Qed.

(** Two parameter stores that agree on every key but maxDescentRate
    initialise objects that differ only in maxDescentRate. *)
Lemma append_inv_head (c a b : string) : (c ++ a)%string = (c ++ b)%string -> a = b.
Proof.
  induction c as [|ch c IH]; simpl; intros Heq.
  - exact Heq.
  - injection Heq as Heq. now apply IH.
Qed.

Lemma Init_maxDescentRate
    {F : Type} {A : Arith F} {Quat : Type}
    (config1 config2 : ParamsHandle F) (this : QuadControl F Quat) :
  (forall key default,
     key <> (_config this ++ ".maxDescentRate")%string ->
     Get config1 key default = Get config2 key default) ->
  (forall key default, GetV3F config1 key default = GetV3F config2 key default) ->
  Init config1 this
  = set_maxDescentRate (Init config2 this)
      (Get config1 (_config this ++ ".maxDescentRate") (ofZ 100)).
Proof.
  intros Hget HgetV3F.
  unfold Init, set_maxDescentRate; cbn.
  rewrite HgetV3F.
  repeat match goal with
  | |- context [Get config1 (?c ++ ?key)%string ?d] =>
      rewrite (Hget (c ++ key)%string d)
        by (intros Heq; apply append_inv_head in Heq; discriminate)
  end.
  reflexivity.
Qed.

(** Hence the motor command of a tick is the same whichever of the two
    stores the controller was initialised from. *)
Lemma RunControl_Init_maxDescentRate
    {F : Type} {A : Arith F} {M : Libm F} {T : Trig F} {C : Common F}
    {Quat : Type} {QO : QuaternionOps F Quat}
    (config1 config2 : ParamsHandle F) (this : QuadControl F Quat)
    (dt simTime : F) :
  (forall key default,
     key <> (_config this ++ ".maxDescentRate")%string ->
     Get config1 key default = Get config2 key default) ->
  (forall key default, GetV3F config1 key default = GetV3F config2 key default) ->
  fst (RunControl (Init config1 this) dt simTime)
  = fst (RunControl (Init config2 this) dt simTime).
Proof.
  intros Hget HgetV3F.
  rewrite (Init_maxDescentRate config1 config2 this Hget HgetV3F).
  reflexivity.
Qed.

(** The accumulator after a tick does not depend on maxDescentRate. *)
Corollary RunControl_accumulator_maxDescentRate
    {F : Type} {A : Arith F} {M : Libm F} {T : Trig F} {C : Common F}
    {Quat : Type} {QO : QuaternionOps F Quat} (this : QuadControl F Quat)
    (v dt simTime : F) :
  integratedAltitudeError (snd (RunControl (set_maxDescentRate this v) dt simTime))
  = integratedAltitudeError (snd (RunControl this dt simTime)).
Proof. reflexivity. Qed.

(** ** The commanded vertical acceleration *)

(** C4 (amended). AltitudeControl sums the proportional, derivative-like,
    integral and feed-forward terms, subtracts the gravitational constant
    from that sum and divides the difference by R(2,2); the returned
    thrust is minus the mass times this acceleration constrained to
    [-maxAscentRate/dt, maxAscentRate/dt]. *)
Theorem AltitudeControl_thrust
    {F : Type} {A : Arith F} {C : Common F}
    {Quat : Type} {QO : QuaternionOps F Quat} (this : QuadControl F Quat)
    (posZCmd velZCmd posZ velZ : F) (attitude : Quat) (accelZCmd dt : F) :
  let zErr := fsub posZCmd posZ in
  let pTerm := fmul (kpPosZ this) zErr in
  let dTerm := fadd (fmul (kpVelZ this) (fsub velZCmd velZ)) velZ in
  let iTerm := fmul (KiPosZ this)
                 (fadd (integratedAltitudeError this) (fmul zErr dt)) in
  let sum := fadd (fadd (fadd pTerm dTerm) iTerm) accelZCmd in
  let acc := fdiv (fsub sum CONST_GRAVITY)
               (RotationMatrix_IwrtB attitude 2%nat 2%nat) in
  fst (AltitudeControl this posZCmd velZCmd posZ velZ attitude accelZCmd dt)
  = fmul (fneg (mass this))
      (CONSTRAIN acc (fdiv (fneg (maxAscentRate this)) dt)
                     (fdiv (maxAscentRate this) dt)).
Proof. reflexivity. Qed.

(** In exact arithmetic the division by R(2,2) applies to the
    gravitational constant as well as to the sum of the four terms. *)
Lemma AltitudeControl_acc_gravity
    {Quat : Type} {QO : QuaternionOps R Quat} (this : QuadControl R Quat)
    (posZCmd velZCmd posZ velZ : R) (attitude : Quat) (accelZCmd dt : R) :
  let zErr := (posZCmd - posZ)%R in
  let sum :=
    (kpPosZ this * zErr + (kpVelZ this * (velZCmd - velZ) + velZ)
     + KiPosZ this * (integratedAltitudeError this + zErr * dt)
     + accelZCmd)%R in
  AltitudeControl_acc this posZCmd velZCmd posZ velZ attitude accelZCmd dt
  = (sum / RotationMatrix_IwrtB attitude 2%nat 2%nat
     - CONST_GRAVITY / RotationMatrix_IwrtB attitude 2%nat 2%nat)%R.
Proof.
  cbn. unfold Rdiv. ring.
Qed.

(** ** The mixer in exact arithmetic *)

Section ExactMixer.
Context {Quat : Type}.
Variable this : QuadControl R Quat.
Local Open Scope R_scope.

(** With no moment, every motor gets a quarter of the collective thrust. *)
Lemma GenerateMotorCommands_mix_no_moment (collThrustCmd : R) (i : nat) :
  desiredThrustsN
    (GenerateMotorCommands_mix this collThrustCmd (mkV3F 0 0 0)) i
  = collThrustCmd / 4.
Proof.
  destruct i as [|[|[|i]]]; cbn; lra.
Qed.

End ExactMixer.

(** C10 (amended). In exact arithmetic, for a nonzero arm length L and a
    nonzero kappa, for every collective thrust command and every moment
    command, the sum of the four motor thrusts computed by
    GenerateMotorCommands before the clamping step equals the collective
    thrust command: the moment-derived terms t1, t2, t3 cancel across the
    four motors.  (On floats every sum and quotient is rounded, and the
    sum is the command only up to these roundings.) *)
Theorem GenerateMotorCommands_mix_sum
    {Quat : Type} (this : QuadControl R Quat)
    (collThrustCmd : R) (momentCmd : V3F R) :
  L this <> 0%R -> kappa this <> 0%R ->
  let cmd := GenerateMotorCommands_mix this collThrustCmd momentCmd in
  (thrust0 cmd + thrust1 cmd + thrust2 cmd + thrust3 cmd)%R = collThrustCmd.
Proof.
  intros Hl Hk cmd. unfold cmd, GenerateMotorCommands_mix.
  cbn [thrust0 thrust1 thrust2 thrust3 x y z].
  cbn [fadd fsub fmul fdiv fneg ofZ Exact.arithR].
  set (l := (L this / sqrtf (IZR 2))%R).
  field.
  split; [exact Hk|].
  unfold l. intros Hzero.
  apply Rmult_integral in Hzero. destruct Hzero as [Hzero|Hzero].
  - now apply Hl.
  - revert Hzero. apply Rinv_neq_0_compat.
    cbn. apply Rgt_not_eq, sqrt_lt_R0. lra.
Qed.

(** The scenario vehicle asked for 4.5 N and the moment (0, 0.3, 0.01). *)
Lemma GenerateMotorCommands_mix_sum_witness :
  let cmd :=
    GenerateMotorCommands_mix (vehicle (F:=R)) (45 / 10)%R
      (mkV3F 0 (3 / 10) (1 / 100))%R in
  (thrust0 cmd + thrust1 cmd + thrust2 cmd + thrust3 cmd)%R = (45 / 10)%R.
Proof.
  refine (@GenerateMotorCommands_mix_sum _ (vehicle (F:=R)) (45 / 10)%R
            (mkV3F 0 (3 / 10) (1 / 100))%R _ _);
    cbn; apply Rgt_not_eq; lra.
Defined.

(** C10, as stated of the code, fails: in single precision the same
    command on the scenario vehicle gives four thrusts whose sum, taken in
    the real numbers, is not 4.5 (it is 4.5 + 2^-23), and whose float sum
    is the float next above 4.5. *)
Lemma GenerateMotorCommands_mix_rounded :
  let cmd :=
    GenerateMotorCommands_mix (vehicle (F:=Binary32.float32)) (dec 45 10)
      (mkV3F (ofZ 0) (dec 3 10) (dec 1 100)) in
  (Binary32.to_R (thrust0 cmd) + Binary32.to_R (thrust1 cmd)
   + Binary32.to_R (thrust2 cmd) + Binary32.to_R (thrust3 cmd))%R
  <> Binary32.to_R (dec 45 10) /\
  fadd (fadd (fadd (thrust0 cmd) (thrust1 cmd)) (thrust2 cmd)) (thrust3 cmd)
  = S754_finite false 9437185 (-21) /\
  (dec 45 10 : Binary32.float32) = S754_finite false 9437184 (-21).
Proof.
  intros cmd.
  assert (cmd = mkCmd (S754_finite false 13360266 (-23))
                      (S754_finite false 15981706 (-23))
                      (S754_finite false 11028205 (-24))
                      (S754_finite false 11570650 (-25))) as Hcmd
    by (vm_compute; reflexivity).
  assert ((dec 45 10 : Binary32.float32) = S754_finite false 9437184 (-21))
    as Hcoll by (vm_compute; reflexivity).
  split; [|split].
  - rewrite Hcmd, Hcoll.
    cbn [thrust0 thrust1 thrust2 thrust3 Binary32.to_R cond_Zopp].
    intros Hsum.
    assert (powerRZ 2 (-21) = 16 * powerRZ 2 (-25))%R as H21.
    { change (-21)%Z with (4 + -25)%Z. rewrite powerRZ_add by lra.
      change (powerRZ 2 4) with (2 ^ 4)%R. lra. }
    assert (powerRZ 2 (-23) = 4 * powerRZ 2 (-25))%R as H23.
    { change (-23)%Z with (2 + -25)%Z. rewrite powerRZ_add by lra.
      change (powerRZ 2 2) with (2 ^ 2)%R. lra. }
    assert (powerRZ 2 (-24) = 2 * powerRZ 2 (-25))%R as H24.
    { change (-24)%Z with (1 + -25)%Z. rewrite powerRZ_add by lra.
      change (powerRZ 2 1) with (2 ^ 1)%R. lra. }
    assert (0 < powerRZ 2 (-25))%R as Hpos by (apply powerRZ_lt; lra).
    rewrite H21, H23, H24 in Hsum. lra.
  - rewrite Hcmd. vm_compute. reflexivity.
  - exact Hcoll.
Qed.

(** A large yaw moment absorbs the thrust command altogether: with 1 N and
    a moment of 10^6 about Z the four thrusts are two opposite pairs, and
    their sum is zero. *)
Lemma binary32_mix_sum_absorbed :
  let cmd :=
    GenerateMotorCommands_mix (vehicle (F:=Binary32.float32)) (ofZ 1)
      (mkV3F (ofZ 0) (ofZ 0) (ofZ 1000000)) in
  thrust0 cmd = fneg (thrust1 cmd) /\ thrust3 cmd = fneg (thrust2 cmd) /\
  Binary32.is_zero (thrust1 cmd) = false /\
  fadd (fadd (fadd (thrust0 cmd) (thrust1 cmd)) (thrust2 cmd)) (thrust3 cmd)
  = S754_zero false.
Proof. repeat split; vm_compute; reflexivity. Qed.

(** ** The mixer in single precision *)

(** With no moment, every motor gets a quarter of the collective thrust
    as soon as the moment arm L / sqrt 2 and the coefficient kappa are
    nonzero numbers (a zero or a NaN there makes t1, t2 or t3 a NaN) and
    the thrust command is not a zero (whose sign the sums may change). *)
Lemma binary32_mix_no_moment
    {Quat : Type} (this : QuadControl Binary32.float32 Quat)
    (collThrustCmd : Binary32.float32) (i : nat) :
  Binary32.is_nonzero (fdiv (L this) (sqrtf (ofZ 2))) = true ->
  Binary32.is_nonzero (kappa this) = true ->
  Binary32.is_zero collThrustCmd = false ->
  desiredThrustsN (GenerateMotorCommands_mix this collThrustCmd V3F_zero) i
  = fdiv collThrustCmd (ofZ 4).
Proof.
  unfold GenerateMotorCommands_mix.
  destruct (fdiv (L this) (sqrtf (ofZ 2))) as [sl|sl| |sl ml el];
    try discriminate;
    destruct (kappa this) as [sk|sk| |sk mk ek]; try discriminate;
    destruct collThrustCmd as [st|st| |st mt et]; try discriminate;
    intros _ _ _; destruct i as [|[|[|i]]];
    destruct sl, sk; try destruct st; reflexivity.
Qed.

(** A thrust command that is a zero gives every motor a zero, of one sign
    or the other. *)
Lemma binary32_mix_no_thrust
    {Quat : Type} (this : QuadControl Binary32.float32 Quat)
    (st : bool) (i : nat) :
  Binary32.is_nonzero (fdiv (L this) (sqrtf (ofZ 2))) = true ->
  Binary32.is_nonzero (kappa this) = true ->
  exists s : bool,
    desiredThrustsN (GenerateMotorCommands_mix this (S754_zero st) V3F_zero) i
    = S754_zero s.
Proof.
  unfold GenerateMotorCommands_mix.
  destruct (fdiv (L this) (sqrtf (ofZ 2))) as [sl|sl| |sl ml el];
    try discriminate;
    destruct (kappa this) as [sk|sk| |sk mk ek]; try discriminate;
    intros _ _; destruct i as [|[|[|i]]];
    destruct sl, sk, st; eexists; reflexivity.
Qed.

(** The sign of a zero does not change what [CONSTRAIN] makes of it, the
    sign of a zero apart. *)
Lemma CONSTRAIN_zero_sign (s s' : bool) (low high : Binary32.float32) :
  Binary32.same_number (CONSTRAIN (S754_zero s) low high)
                       (CONSTRAIN (S754_zero s') low high).
Proof.
  unfold CONSTRAIN, MAX, MIN, Binary32.same_number.
  destruct high as [sh|sh| |sh mh eh]; try destruct sh;
    destruct low as [sl|sl| |sl ml el]; try destruct sl;
    cbn; auto.
Qed.

Lemma binary32_no_moment
    {Quat : Type} (this : QuadControl Binary32.float32 Quat)
    (collThrustCmd : Binary32.float32) (i : nat) :
  Binary32.is_nonzero (fdiv (L this) (sqrtf (ofZ 2))) = true ->
  Binary32.is_nonzero (kappa this) = true ->
  Binary32.is_zero collThrustCmd = false ->
  desiredThrustsN (GenerateMotorCommands this collThrustCmd V3F_zero) i
  = CONSTRAIN (fdiv collThrustCmd (ofZ 4))
      (minMotorThrust this) (maxMotorThrust this).
Proof.
  intros Hl Hk Ht.
  pose proof (fun j =>
    binary32_mix_no_moment this collThrustCmd j Hl Hk Ht)
    as Hmix.
  unfold GenerateMotorCommands.
  destruct i as [|[|[|i]]]; cbn [desiredThrustsN thrust0 thrust1 thrust2 thrust3].
  - now rewrite <- (Hmix 0%nat).
  - now rewrite <- (Hmix 1%nat).
  - now rewrite <- (Hmix 2%nat).
  - now rewrite <- (Hmix 3%nat).
Qed.

(** Each thrust returned is the constrained thrust of the mix. *)
Lemma GenerateMotorCommands_of_mix
    {F : Type} {A : Arith F} {M : Libm F}
    {Quat : Type} (this : QuadControl F Quat)
    (collThrustCmd : F) (momentCmd : V3F F) (i : nat) :
  desiredThrustsN (GenerateMotorCommands this collThrustCmd momentCmd) i
  = CONSTRAIN
      (desiredThrustsN (GenerateMotorCommands_mix this collThrustCmd momentCmd) i)
      (minMotorThrust this) (maxMotorThrust this).
Proof. destruct i as [|[|[|i]]]; reflexivity. Qed.

(** C7 (amended). In single precision, provided the moment arm L / sqrt 2
    and the coefficient kappa are nonzero numbers (neither a zero nor a
    NaN): for every collective thrust T, GenerateMotorCommands with zero
    moment on all three axes yields four motor thrusts all equal to
    CONSTRAIN(T/4, minMotorThrust, maxMotorThrust), as the same float when
    T is not a zero and up to the sign of a zero when it is; in
    particular, with L = 0.17, kappa = 0.016, a collective thrust of 4.5
    and zero moment, each thrust before clamping equals 1.125. *)
Theorem GenerateMotorCommands_no_moment
    {Quat : Type} (this : QuadControl Binary32.float32 Quat) (i : nat) :
  (Binary32.is_nonzero (fdiv (L this) (sqrtf (ofZ 2))) = true ->
   Binary32.is_nonzero (kappa this) = true ->
   forall T : Binary32.float32,
     Binary32.same_number
       (desiredThrustsN (GenerateMotorCommands this T V3F_zero) i)
       (CONSTRAIN (fdiv T (ofZ 4)) (minMotorThrust this) (maxMotorThrust this)) /\
     (Binary32.is_zero T = false ->
      desiredThrustsN (GenerateMotorCommands this T V3F_zero) i
      = CONSTRAIN (fdiv T (ofZ 4)) (minMotorThrust this) (maxMotorThrust this))) /\
  (L this = dec 17 100 -> kappa this = dec 16 1000 ->
   desiredThrustsN (GenerateMotorCommands_mix this (dec 45 10) V3F_zero) i
   = dec 1125 1000).
Proof.
  split.
  - intros Hl Hk T.
    rewrite GenerateMotorCommands_of_mix.
    destruct (Binary32.is_zero T) eqn:Hzero.
    + split; [|discriminate].
      destruct T as [st|st| |st mt et]; try discriminate.
      destruct (binary32_mix_no_thrust this st i Hl Hk) as [s ->].
      change (fdiv (S754_zero st) (ofZ 4)) with (S754_zero (xorb st false)).
      apply CONSTRAIN_zero_sign.
    + rewrite (binary32_mix_no_moment this T i Hl Hk Hzero).
      split; [left|intros _]; reflexivity.
  - intros HL Hkappa. unfold GenerateMotorCommands_mix.
    rewrite HL, Hkappa.
    destruct i as [|[|[|i]]]; vm_compute; reflexivity.
Qed.

(** The scenario vehicle has the arm length and the torque coefficient of
    the particular case: asked for a zero thrust, its front left motor gets
    the minimum thrust; asked for 2.7 N, the float nearest to 0.675 N;
    asked for 4.5 N, each motor gets 1.125 N before clamping. *)
Lemma GenerateMotorCommands_no_moment_witness :
  Binary32.same_number
    (desiredThrustsN
       (GenerateMotorCommands (vehicle (F:=Binary32.float32))
          (S754_zero true) V3F_zero) 0)
    (CONSTRAIN (fdiv (S754_zero true) (ofZ 4))
       (minMotorThrust (vehicle (F:=Binary32.float32)))
       (maxMotorThrust (vehicle (F:=Binary32.float32)))) /\
  desiredThrustsN
    (GenerateMotorCommands (vehicle (F:=Binary32.float32)) (dec 27 10)
       V3F_zero) 0
  = dec 675 1000 /\
  desiredThrustsN
    (GenerateMotorCommands_mix (vehicle (F:=Binary32.float32)) (dec 45 10)
       V3F_zero) 0
  = dec 1125 1000.
Proof.
  split; [|split].
  - refine (proj1 (proj1 (GenerateMotorCommands_no_moment
                            (vehicle (F:=Binary32.float32)) 0) _ _ _));
      vm_compute; reflexivity.
  - refine (eq_trans
              (proj2 (proj1 (GenerateMotorCommands_no_moment
                               (vehicle (F:=Binary32.float32)) 0) _ _ _) _) _);
      vm_compute; reflexivity.
  - refine (proj2 (GenerateMotorCommands_no_moment
                     (vehicle (F:=Binary32.float32)) 0) _ _);
      vm_compute; reflexivity.
Defined.

(** C7, as stated for every vehicle, fails: with an arm length of zero
    the terms t1 and t2 are 0 / 0, every thrust of the mix is a NaN, and
    what GenerateMotorCommands returns on each motor is not
    CONSTRAIN(T/4, minMotorThrust, maxMotorThrust), which for 4.5 N is
    1.125 N. *)
Lemma GenerateMotorCommands_no_arm :
  let this := set_L (vehicle (F:=Binary32.float32)) (ofZ 0) in
  GenerateMotorCommands_mix this (dec 45 10) V3F_zero
  = mkCmd S754_nan S754_nan S754_nan S754_nan /\
  CONSTRAIN (fdiv (dec 45 10) (ofZ 4)) (minMotorThrust this) (maxMotorThrust this)
  = dec 1125 1000 /\
  thrust0 (GenerateMotorCommands this (dec 45 10) V3F_zero) <> dec 1125 1000 /\
  thrust1 (GenerateMotorCommands this (dec 45 10) V3F_zero) <> dec 1125 1000 /\
  thrust2 (GenerateMotorCommands this (dec 45 10) V3F_zero) <> dec 1125 1000 /\
  thrust3 (GenerateMotorCommands this (dec 45 10) V3F_zero) <> dec 1125 1000.
Proof.
  repeat split; try (vm_compute; reflexivity); vm_compute; discriminate.
Qed.

(** In exact arithmetic, whatever the vehicle: each motor gets
    CONSTRAIN(T/4, minMotorThrust, maxMotorThrust). *)
Lemma exact_no_moment
    {Quat : Type} (this : QuadControl R Quat) (T : R) (i : nat) :
  desiredThrustsN (GenerateMotorCommands this T (mkV3F 0 0 0)%R) i
  = CONSTRAIN (T / 4)%R (minMotorThrust this) (maxMotorThrust this).
Proof.
  rewrite GenerateMotorCommands_of_mix.
  now rewrite GenerateMotorCommands_mix_no_moment.
Qed.

(** The particular case computed in single precision: 4.5 / 4 is the
    float 1.125 for each motor, and it is within the motor range. *)
Lemma binary32_no_moment_scenario :
  GenerateMotorCommands_mix (vehicle (F:=Binary32.float32)) (dec 45 10) V3F_zero
  = mkCmd (dec 1125 1000) (dec 1125 1000) (dec 1125 1000) (dec 1125 1000) /\
  GenerateMotorCommands (vehicle (F:=Binary32.float32)) (dec 45 10) V3F_zero
  = mkCmd (dec 1125 1000) (dec 1125 1000) (dec 1125 1000) (dec 1125 1000).
Proof. split; vm_compute; reflexivity. Qed.

(** ** The altitude integral *)

(** In every arithmetic the accumulator is overwritten with its sum with
    the product of the altitude error by dt, and with nothing else: no
    clamp applies. *)
Lemma AltitudeControl_accumulator_update
    {F : Type} {A : Arith F} {C : Common F}
    {Quat : Type} {QO : QuaternionOps F Quat} (this : QuadControl F Quat)
    (posZCmd velZCmd posZ velZ : F) (attitude : Quat) (accelZCmd dt : F) :
  snd (AltitudeControl this posZCmd velZCmd posZ velZ attitude accelZCmd dt)
  = set_integratedAltitudeError this
      (fadd (integratedAltitudeError this) (fmul (fsub posZCmd posZ) dt)).
Proof. reflexivity. Qed.

(** ** The altitude integral in exact arithmetic *)

Section ExactAltitude.
Context {Quat : Type} {QO : QuaternionOps R Quat}.
Local Open Scope R_scope.

Lemma AltitudeControl_accumulator (this : QuadControl R Quat)
    (posZCmd velZCmd posZ velZ : R) (attitude : Quat) (accelZCmd dt : R) :
  integratedAltitudeError
    (snd (AltitudeControl this posZCmd velZCmd posZ velZ attitude accelZCmd dt))
  = integratedAltitudeError this + (posZCmd - posZ) * dt.
Proof. reflexivity. Qed.






End ExactAltitude.




(** ** The horizontal speed limit in exact arithmetic *)

Section ExactLateral.
Local Open Scope R_scope.

Lemma mag_nonneg (v : V3F R) : 0 <= mag v.
Proof. unfold mag. cbn. apply sqrt_pos. Qed.

Lemma mag_square (v : V3F R) : mag v * mag v = x v * x v + y v * y v + z v * z v.
Proof. unfold mag. cbn. apply sqrt_def. nra. Qed.

Lemma sqrt_scaled_squares (a b c m k : R) :
  0 < m -> 0 <= k -> m * m = a * a + b * b + c * c ->
  sqrt (a / m * k * (a / m * k) + b / m * k * (b / m * k)
        + c / m * k * (c / m * k)) = k.
Proof.
  intros Hm Hk Hsq.
  replace (a / m * k * (a / m * k) + b / m * k * (b / m * k)
           + c / m * k * (c / m * k))
    with (k * k * ((a * a + b * b + c * c) / (m * m))) by (field; lra).
  rewrite <- Hsq.
  replace (k * k * (m * m / (m * m))) with (k * k) by (field; lra).
  now apply sqrt_square.
Qed.

(** Scaling the normalised vector by a nonnegative [k] gives a vector of
    magnitude [k]. *)
Lemma mag_scale_norm (v : V3F R) (k : R) :
  0 < mag v -> 0 <= k -> mag (V3F_scale (norm v) k) = k.
Proof.
  intros Hpos Hk.
  change (mag (V3F_scale (norm v) k))
    with (sqrt (x v / mag v * k * (x v / mag v * k)
                + y v / mag v * k * (y v / mag v * k)
                + z v / mag v * k * (z v / mag v * k))).
  apply sqrt_scaled_squares; try assumption. apply mag_square.
Qed.

Lemma scale_norm_direction (v : V3F R) (k : R) :
  0 < mag v -> V3F_scale (norm v) k = V3F_scale v (k / mag v).
Proof.
  intros Hpos. unfold V3F_scale, norm.
  remember (mag v) as m eqn:Hm. cbn.
  f_equal; field; lra.
Qed.

End ExactLateral.

(** C8 (amended). In LateralPositionControl, for every desired velocity
    whose horizontal magnitude (after its Z component is forced to 0)
    exceeds maxSpeedXY, the velocity command used in the control sum is
    the normalised desired velocity times maxSpeedXY, each operation being
    that of the arithmetic (rounded, on floats); otherwise the desired
    velocity is used unchanged.  In exact arithmetic, provided maxSpeedXY
    is not negative, the command used in the first case has magnitude
    exactly maxSpeedXY and the direction of the desired velocity (it is
    the desired velocity scaled by maxSpeedXY / magnitude, which is not
    negative). *)
Theorem LateralPositionControl_capVelCmd_limit :
  (forall (F : Type) (A : Arith F) (M : Libm F)
          (Quat : Type) (this : QuadControl F Quat) (velCmd : V3F F),
     let velCmd0 := mkV3F (x velCmd) (y velCmd) (ofZ 0) in
     let capVelCmd := LateralPositionControl_capVelCmd this velCmd in
     (flt (maxSpeedXY this) (mag velCmd0) = true ->
      capVelCmd = V3F_scale (norm velCmd0) (maxSpeedXY this)) /\
     (flt (maxSpeedXY this) (mag velCmd0) = false -> capVelCmd = velCmd0)) /\
  (forall (Quat : Type) (this : QuadControl R Quat) (velCmd : V3F R),
     (0 <= maxSpeedXY this)%R ->
     let velCmd0 := mkV3F (x velCmd) (y velCmd) 0%R in
     let capVelCmd := LateralPositionControl_capVelCmd this velCmd in
     ((maxSpeedXY this < mag velCmd0)%R ->
        mag capVelCmd = maxSpeedXY this /\
        capVelCmd = V3F_scale velCmd0 (maxSpeedXY this / mag velCmd0)%R /\
        (0 <= maxSpeedXY this / mag velCmd0)%R) /\
     ((mag velCmd0 <= maxSpeedXY this)%R -> capVelCmd = velCmd0)).
Proof.
  split.
  - intros F A M Quat this velCmd velCmd0 capVelCmd.
    unfold capVelCmd, LateralPositionControl_capVelCmd.
    fold velCmd0.
    split; intros Hcmp; rewrite Hcmp; reflexivity.
  - intros Quat this velCmd Hlimit velCmd0 capVelCmd.
    unfold capVelCmd, LateralPositionControl_capVelCmd.
    change (mkV3F (x velCmd) (y velCmd) (ofZ 0)) with velCmd0.
    destruct (flt (maxSpeedXY this) (mag velCmd0)) eqn:Hcmp.
    + apply ExactOrder.Rltb_true in Hcmp.
      assert (0 < mag velCmd0)%R as Hpos by lra.
      split; [intros _|intros Hunder; lra].
      split; [|split].
      * now apply mag_scale_norm.
      * now apply scale_norm_direction.
      * apply Rmult_le_pos; [assumption|].
        apply Rlt_le, Rinv_0_lt_compat, Hpos.
    + apply ExactOrder.Rltb_false in Hcmp.
      split; [intros Hover; lra|reflexivity].
Qed.

(** The scenario vehicle (maxSpeedXY = 5) asked for (30, 40, 7) m/s:
    the command used has magnitude 5. *)
Lemma LateralPositionControl_capVelCmd_limit_witness :
  mag (LateralPositionControl_capVelCmd (vehicle (F:=R)) (mkV3F 30 40 7)%R)
  = 5%R.
Proof.
  refine (proj1 (proj1 (proj2 LateralPositionControl_capVelCmd_limit
                          _ (vehicle (F:=R)) (mkV3F 30 40 7)%R _) _)).
  - cbn. lra.
  - cbn. unfold mag. cbn.
    replace (30 * 30 + 40 * 40 + 0 * 0)%R with (50 * 50)%R by lra.
    rewrite sqrt_square; lra.
Defined.

(** C8, as stated of the code, fails: in single precision the scenario
    vehicle (maxSpeedXY = 5) asked for (5, 3, 7) m/s, whose horizontal
    magnitude exceeds the limit, uses a velocity command whose magnitude
    is not 5: computed as the code computes it, it is the float next
    above 5, which exceeds the limit again; and taken in the real numbers
    it exceeds 5 as well. *)
Lemma LateralPositionControl_capVelCmd_rounded :
  let this := vehicle (F:=Binary32.float32) in
  let velCmd := mkV3F (ofZ 5) (ofZ 3) (ofZ 7) in
  let capVelCmd := LateralPositionControl_capVelCmd this velCmd in
  flt (maxSpeedXY this) (mag (mkV3F (x velCmd) (y velCmd) (ofZ 0))) = true /\
  maxSpeedXY this = S754_finite false 10485760 (-21) /\
  mag capVelCmd = S754_finite false 10485761 (-21) /\
  flt (maxSpeedXY this) (mag capVelCmd) = true /\
  (Binary32.to_R (maxSpeedXY this) * Binary32.to_R (maxSpeedXY this)
   < Binary32.to_R (x capVelCmd) * Binary32.to_R (x capVelCmd)
     + Binary32.to_R (y capVelCmd) * Binary32.to_R (y capVelCmd)
     + Binary32.to_R (z capVelCmd) * Binary32.to_R (z capVelCmd))%R.
Proof.
  intros this velCmd capVelCmd.
  assert (capVelCmd = mkV3F (S754_finite false 8991466 (-21))
                            (S754_finite false 10789759 (-22))
                            (S754_zero false)) as Hcap
    by (vm_compute; reflexivity).
  assert (maxSpeedXY this = S754_finite false 10485760 (-21)) as Hmax
    by (vm_compute; reflexivity).
  repeat split; try (vm_compute; reflexivity).
  rewrite Hcap, Hmax. cbn [x y z Binary32.to_R cond_Zopp].
  assert (powerRZ 2 (-21) = 2 * powerRZ 2 (-22))%R as H21.
  { change (-21)%Z with (1 + -22)%Z. rewrite powerRZ_add by lra.
    change (powerRZ 2 1) with (2 ^ 1)%R. lra. }
  assert (0 < powerRZ 2 (-22))%R as Hpos by (apply powerRZ_lt; lra).
  rewrite H21. generalize dependent (powerRZ 2 (-22)). intros u _ Hu.
  assert (0 < u * u)%R as Hsq by (apply Rmult_lt_0_compat; assumption).
  replace (10485760 * (2 * u) * (10485760 * (2 * u)))%R
    with (439804651110400 * (u * u))%R by ring.
  replace (8991466 * (2 * u) * (8991466 * (2 * u))
           + 10789759 * u * (10789759 * u) + 0 * 0)%R
    with (439804742594705 * (u * u))%R by ring.
  apply Rmult_lt_compat_r; [assumption|lra].
Qed.

(** Why the limit must not be negative, in exact arithmetic too: with
    maxSpeedXY = -1 a desired velocity of (1, 0, 5) m/s has a horizontal
    magnitude, 1, that exceeds the limit, and the velocity command used is
    (-1, 0, 0): its magnitude is 1, not -1, and it points backwards. *)
Lemma LateralPositionControl_capVelCmd_negative_limit :
  let this := vehicle_with (F:=R) [("QuadControlParams.maxSpeedXY"%string, (-1)%R)] in
  let velCmd := mkV3F 1%R 0%R 5%R in
  (maxSpeedXY this < mag (mkV3F (x velCmd) (y velCmd) 0%R))%R /\
  LateralPositionControl_capVelCmd this velCmd = mkV3F (-1)%R 0%R 0%R /\
  mag (LateralPositionControl_capVelCmd this velCmd) <> maxSpeedXY this.
Proof.
  intros this velCmd.
  assert (mag (mkV3F 1 0 0)%R = 1%R) as Hmag.
  { unfold mag. cbn.
    replace (1 * 1 + 0 * 0 + 0 * 0)%R with 1%R by lra. apply sqrt_1. }
  assert (LateralPositionControl_capVelCmd this velCmd = mkV3F (-1) 0 0)%R as Hcap.
  { unfold LateralPositionControl_capVelCmd.
    change (mkV3F (x velCmd) (y velCmd) (ofZ 0)) with (mkV3F 1 0 0)%R.
    change (maxSpeedXY this) with (-1)%R.
    destruct (flt (-1)%R (mag (mkV3F 1 0 0)%R)) eqn:Hcmp.
    - unfold V3F_scale, norm. rewrite Hmag. cbn. f_equal; lra.
    - apply ExactOrder.Rltb_false in Hcmp. rewrite Hmag in Hcmp. lra. }
  split; [|split].
  - change (maxSpeedXY this) with (-1)%R.
    change (mkV3F (x velCmd) (y velCmd) 0%R) with (mkV3F 1 0 0)%R.
    rewrite Hmag. lra.
  - exact Hcap.
  - rewrite Hcap. change (maxSpeedXY this) with (-1)%R.
    pose proof (mag_nonneg (mkV3F (-1) 0 0)%R). lra.
Qed.

(** ** The yaw error in exact arithmetic *)

Section ExactYaw.
Local Open Scope R_scope.

(** The remainder of a nonnegative dividend by a positive divisor lies in
    [[0, divisor)]. *)
Lemma fmodR_range (a b : R) :
  0 <= a -> 0 < b -> 0 <= Exact.fmodR a b < b.
Proof.
  intros Ha Hb. unfold Exact.fmodR, Exact.Rtrunc.
  assert (0 <= a / b) as Hq.
  { apply Rmult_le_pos; [assumption|]. apply Rlt_le, Rinv_0_lt_compat, Hb. }
  destruct (Rle_dec 0 (a / b)) as [_|Hneg]; [|contradiction].
  destruct (base_Int_part (a / b)) as [Hlow Hup].
  assert (a / b * b = a) as Hab by (field; lra).
  split; nra.
Qed.

(** The wrapped desired yaw [yawCmdToPi] stays strictly within one turn
    of zero: it is in [[0, 2 pi)] for a positive command and in
    [(-2 pi, 0]] otherwise. *)
Lemma yawCmdToPi_range (yawCmd : R) :
  - (2 * PI) <
    (if flt 0 yawCmd then fmodf yawCmd (2 * PI)
     else - fmodf (- yawCmd) (2 * PI)) < 2 * PI.
Proof.
  pose proof PI_RGT_0 as Hpi.
  destruct (flt 0 yawCmd) eqn:Hcmp.
  - apply ExactOrder.Rltb_true in Hcmp.
    destruct (@fmodR_range yawCmd (2 * PI)) as [Hlow Hup]; try lra.
    cbn. lra.
  - apply ExactOrder.Rltb_false in Hcmp.
    destruct (@fmodR_range (- yawCmd) (2 * PI)) as [Hlow Hup]; try lra.
    cbn. lra.
Qed.

(** The error is the difference between a wrapped command and the
    current yaw, corrected by at most one turn. *)
Lemma YawControl_err_cases (yawCmd yaw : R) :
  exists w : R,
    - (2 * PI) < w < 2 * PI /\
    ((PI < w - yaw /\ YawControl_err yawCmd yaw = w - yaw - 2 * PI) \/
     (w - yaw < - PI /\ YawControl_err yawCmd yaw = w - yaw + 2 * PI) \/
     (- PI <= w - yaw <= PI /\ YawControl_err yawCmd yaw = w - yaw)).
Proof.
  pose proof PI_RGT_0 as Hpi.
  pose proof (yawCmdToPi_range yawCmd) as Hw.
  unfold YawControl_err.
  change (ofZ 0) with 0 in *. change (fmul (ofZ 2) F_PI) with (2 * PI) in *.
  set (w := if flt 0 yawCmd then fmodf yawCmd (2 * PI)
            else fneg (fmodf (fneg yawCmd) (2 * PI))) in *.
  exists w. split; [exact Hw|].
  change (fsub w yaw) with (w - yaw).
  change (fneg F_PI) with (- PI). change (F_PI : R) with PI.
  destruct (flt PI (w - yaw)) eqn:Hhigh.
  - apply ExactOrder.Rltb_true in Hhigh.
    change (fsub (w - yaw) (2 * PI)) with (w - yaw - 2 * PI).
    destruct (flt (w - yaw - 2 * PI) (- PI)) eqn:Hlow.
    + apply ExactOrder.Rltb_true in Hlow. lra.
    + left. split; [assumption|reflexivity].
  - apply ExactOrder.Rltb_false in Hhigh.
    destruct (flt (w - yaw) (- PI)) eqn:Hlow.
    + apply ExactOrder.Rltb_true in Hlow.
      right; left. split; [assumption|reflexivity].
    + apply ExactOrder.Rltb_false in Hlow.
      right; right. split; [lra|reflexivity].
Qed.

End ExactYaw.

(** C2 (amended). The rate that YawControl returns equals kpYaw times
    the yaw error it computes (after wrapping the desired yaw and applying
    the +/- 2*pi corrections), the product being that of the arithmetic
    (rounded, on floats).  In exact arithmetic, with F_PI = pi, for every
    desired yaw and every current yaw within [-pi, pi], that yaw error
    satisfies -pi <= error <= pi. *)
Theorem YawControl_err_bounded :
  (forall (F : Type) (A : Arith F) (M : Libm F) (C : Common F)
          (Quat : Type) (this : QuadControl F Quat) (yawCmd yaw : F),
     YawControl this yawCmd yaw
     = fmul (kpYaw this) (YawControl_err yawCmd yaw)) /\
  (forall yawCmd yaw : R,
     (- PI <= yaw <= PI)%R ->
     (- PI <= YawControl_err yawCmd yaw <= PI)%R).
Proof.
  split.
  - intros. reflexivity.
  - intros yawCmd yaw Hyaw.
    destruct (YawControl_err_cases yawCmd yaw)
      as [w [Hw [[Hc ->]|[[Hc ->]|[Hc ->]]]]]; lra.
Qed.

(** A desired yaw of 7 rad, more than one turn, with the vehicle heading
    at -3 rad. *)
Lemma YawControl_err_bounded_witness :
  (- PI <= YawControl_err 7%R (-3)%R <= PI)%R.
Proof.
  refine (proj2 YawControl_err_bounded 7%R (-3)%R _).
  pose proof PI2_3_2. pose proof PI_RGT_0. lra.
Defined.

(** C2, as stated for every current yaw, fails: with a desired yaw of 0
    and a current yaw of 100 rad the error, corrected by one turn only,
    is below -96 and so below -pi; on floats it is about -93.72.  And as
    stated of the code it fails for a current yaw within [-pi, pi] too: in
    single precision [F_PI] is the float next above pi, and a desired yaw
    of [F_PI] with a current yaw of 0 gives the error [F_PI], which
    exceeds pi. *)
Lemma YawControl_err_unbounded :
  ((YawControl_err 0%R 100%R < - PI)%R /\
   ~ (- PI <= YawControl_err 0%R 100%R <= PI)%R) /\
  (Binary32.to_R (YawControl_err (ofZ 0) (ofZ 100)) < - PI)%R /\
  (YawControl_err (F_PI : Binary32.float32) (ofZ 0) = F_PI /\
   (PI < Binary32.to_R (YawControl_err (F_PI : Binary32.float32) (ofZ 0)))%R).
Proof.
  pose proof PI_RGT_0 as Hpi. pose proof PI_4 as Hpi4.
  split; [|split].
  - assert (YawControl_err 0 100 < - PI)%R as Hlt.
    { destruct (YawControl_err_cases 0 100)
        as [w [Hw [[Hc ->]|[[Hc ->]|[Hc ->]]]]]; lra. }
    split; [exact Hlt|lra].
  - replace (YawControl_err (ofZ 0) (ofZ 100) : Binary32.float32)
      with (S754_finite true 12283650 (-17)) by (vm_compute; reflexivity).
    cbn [Binary32.to_R cond_Zopp].
    change (powerRZ 2 (-17)) with (/ 2 ^ 17)%R.
    change (IZR (- Z.pos 12283650)) with (- 12283650)%R. lra.
  - assert (YawControl_err (F_PI : Binary32.float32) (ofZ 0) = F_PI) as Herr
      by (vm_compute; reflexivity).
    split; [exact Herr|]. rewrite Herr.
    change (Binary32.to_R F_PI) with (13176795 * / 2 ^ 22)%R.
    destruct (PI_2_3_7_ineq 4) as [_ Hup].
    unfold sum_f_R0, tg_alt, PI_2_3_7_tg, Ratan_seq in Hup.
    simpl in Hup. lra.
Qed.

(** ** A zero tick duration in single precision *)

Section Binary32Altitude.
Import Binary32.
Context {Quat : Type} {QO : QuaternionOps float32 Quat}.

Lemma binary32_thrust_of_acc (this : QuadControl float32 Quat)
    (posZCmd velZCmd posZ velZ : float32) (attitude : Quat)
    (accelZCmd dt : float32) :
  fst (AltitudeControl this posZCmd velZCmd posZ velZ attitude accelZCmd dt)
  = fmul (fneg (mass this))
      (CONSTRAIN
         (AltitudeControl_acc this posZCmd velZCmd posZ velZ attitude accelZCmd dt)
         (fdiv (fneg (maxAscentRate this)) dt)
         (fdiv (maxAscentRate this) dt)).
Proof. reflexivity. Qed.

(** No quotient by a zero is finite. *)
Lemma fdiv_zero_not_finite (a : float32) (s : bool) :
  is_finite (fdiv a (S754_zero s)) = false.
Proof. destruct a; reflexivity. Qed.

(** A positive number divided by +0 is plus infinity, its opposite
    divided by +0 is minus infinity. *)
Lemma fdiv_positive_zero (a : float32) :
  flt (ofZ 0) a = true ->
  fdiv a (S754_zero false) = S754_infinity false /\
  fdiv (fneg a) (S754_zero false) = S754_infinity true.
Proof.
  destruct a as [s|s| |s m e]; try destruct s; cbn; intros Hpos;
    try discriminate; split; reflexivity.
Qed.

(** Between minus and plus infinity, [CONSTRAIN] changes no number. *)
Lemma CONSTRAIN_infinite_bounds (a : float32) :
  is_nan a = false ->
  CONSTRAIN a (S754_infinity true) (S754_infinity false) = a.
Proof.
  destruct a as [s|s| |s m e]; try destruct s; cbn; intros Hnan;
    try discriminate; reflexivity.
Qed.

End Binary32Altitude.

(** C3 (amended). AltitudeControl applies no guard or minimum clamp to
    the tick duration: the saturation bounds are (-maxAscentRate)/dt and
    maxAscentRate/dt for the dt it is passed.  In IEEE arithmetic a zero
    dt raises no fault, but the bound it gives is never finite; for
    dt = +0 and maxAscentRate > 0 the bounds are minus and plus infinity,
    the saturation is vacuous and the thrust is -mass times the commanded
    acceleration, whenever that acceleration is a number. *)
Theorem AltitudeControl_zero_dt
    {Quat : Type} {QO : QuaternionOps Binary32.float32 Quat}
    (this : QuadControl Binary32.float32 Quat)
    (posZCmd velZCmd posZ velZ : Binary32.float32) (attitude : Quat)
    (accelZCmd : Binary32.float32) :
  (forall s : bool,
     Binary32.is_finite (fdiv (maxAscentRate this) (S754_zero s)) = false) /\
  (flt (ofZ 0) (maxAscentRate this) = true ->
   let acc := AltitudeControl_acc this posZCmd velZCmd posZ velZ attitude
                accelZCmd (S754_zero false) in
   Binary32.is_nan acc = false ->
   fst (AltitudeControl this posZCmd velZCmd posZ velZ attitude accelZCmd
          (S754_zero false))
   = fmul (fneg (mass this)) acc).
Proof.
  split.
  - intros s. apply fdiv_zero_not_finite.
  - intros Hpos acc Hnan.
    rewrite binary32_thrust_of_acc. fold acc.
    destruct (fdiv_positive_zero _ Hpos) as [-> ->].
    now rewrite CONSTRAIN_infinite_bounds.
Qed.

(** The scenario vehicle (maxAscentRate = 5), 1000 m below its setpoint,
    with dt = 0: the thrust is the unsaturated 0.5 * 20009.81 N. *)
Lemma AltitudeControl_zero_dt_witness :
  fst (AltitudeControl (vehicle (F:=Binary32.float32))
         (ofZ (-1000)) (ofZ 0) (ofZ 0) (ofZ 0) level (ofZ 0) (S754_zero false))
  = S754_finite false 10245023 (-10).
Proof.
  refine (eq_trans
            (proj2 (AltitudeControl_zero_dt (vehicle (F:=Binary32.float32))
                      (ofZ (-1000)) (ofZ 0) (ofZ 0) (ofZ 0) level (ofZ 0))
               _ _) _);
    vm_compute; reflexivity.
Defined.

(** C3, as stated, fails: nothing keeps dt away from zero.  On the
    scenario vehicle the bound maxAscentRate/dt is plus infinity for
    dt = 0, and the thrust for an altitude error of 1000 m, which a tick
    of 10 ms saturates at 250 N, is 10004.9 N; with maxAscentRate = 0 the
    bound is 0/0 and the thrust of the hovering vehicle is not a number. *)
Lemma AltitudeControl_dt_unguarded :
  let this := vehicle (F:=Binary32.float32) in
  let grounded :=
    vehicle_with (F:=Binary32.float32)
      [("QuadControlParams.maxAscentRate"%string, ofZ 0)] in
  fdiv (maxAscentRate this) (ofZ 0) = S754_infinity false /\
  fst (AltitudeControl this (ofZ (-1000)) (ofZ 0) (ofZ 0) (ofZ 0) level
         (ofZ 0) (dec 1 100)) = ofZ 250 /\
  fst (AltitudeControl this (ofZ (-1000)) (ofZ 0) (ofZ 0) (ofZ 0) level
         (ofZ 0) (ofZ 0)) = S754_finite false 10245023 (-10) /\
  fst (AltitudeControl grounded (ofZ (-1)) (ofZ 0) (ofZ (-1)) (ofZ 0) level
         (ofZ 0) (ofZ 0)) = S754_nan.
Proof. repeat split; vm_compute; reflexivity. Qed.

(** ** The order of the division and of the gravity term *)

(** C4, as stated, fails: the code subtracts the gravitational constant
    before it divides by R(2,2), the specification after.  Hovering on its
    setpoint but banked by 60 degrees (R(2,2) = 0.5), the scenario vehicle
    is given a thrust of 0.5 * 9.81 / 0.5 = 9.81 N by the code, which
    holds its altitude, and of 0.5 * 9.81 = 4.905 N by the specification's
    wording. *)
Lemma AltitudeControl_not_spec :
  let this := vehicle (F:=Binary32.float32) in
  fst (AltitudeControl this (ofZ (-1)) (ofZ 0) (ofZ (-1)) (ofZ 0) banked
         (ofZ 0) (dec 1 100)) = dec 981 100 /\
  AltitudeControl_spec this (ofZ (-1)) (ofZ 0) (ofZ (-1)) (ofZ 0) banked
    (ofZ 0) (dec 1 100) = dec 4905 1000 /\
  fst (AltitudeControl this (ofZ (-1)) (ofZ 0) (ofZ (-1)) (ofZ 0) banked
         (ofZ 0) (dec 1 100))
  <> AltitudeControl_spec this (ofZ (-1)) (ofZ 0) (ofZ (-1)) (ofZ 0) banked
       (ofZ 0) (dec 1 100).
Proof.
  repeat split; try (vm_compute; reflexivity).
  vm_compute. discriminate.
Qed.

(** With a level attitude (R(2,2) = 1) the two orders agree on the
    scenario vehicle: the hover thrust is the weight, 0.5 * 9.81 N. *)
Lemma AltitudeControl_hover :
  let this := vehicle (F:=Binary32.float32) in
  fst (AltitudeControl this (ofZ (-1)) (ofZ 0) (ofZ (-1)) (ofZ 0) level
         (ofZ 0) (dec 1 100)) = dec 4905 1000 /\
  AltitudeControl_spec this (ofZ (-1)) (ofZ 0) (ofZ (-1)) (ofZ 0) level
    (ofZ 0) (dec 1 100) = dec 4905 1000.
Proof. split; vm_compute; reflexivity. Qed.

(** ** The yaw error in single precision *)

(** The counterexample to C2 computed on floats: the error for a desired
    yaw of 0 and a current yaw of 100 rad is about -93.72, below -pi. *)
Lemma binary32_yaw_error_unbounded :
  YawControl_err (ofZ 0) (ofZ 100) = S754_finite true 12283650 (-17) /\
  flt (YawControl_err (ofZ 0) (ofZ 100)) (fneg (F_PI : Binary32.float32)) = true.
Proof. split; vm_compute; reflexivity. Qed.

(** The spec's scenario: a desired yaw of 3 pi (the float nearest to it)
    with a current yaw of 0 wraps to an error just below pi. *)
Lemma binary32_yaw_error_3pi :
  let three_pi : Binary32.float32 := fmul (ofZ 3) F_PI in
  Binary32.le32 (YawControl_err three_pi (ofZ 0)) F_PI /\
  Binary32.le32 (fneg F_PI) (YawControl_err three_pi (ofZ 0)).
Proof. split; vm_compute; reflexivity. Qed.

(** * Further properties of the control law *)

(** ** How a tick is put together *)

Section TickStructure.
Context {F : Type} {A : Arith F} {M : Libm F} {T : Trig F} {C : Common F}.
Context {Quat : Type} {QO : QuaternionOps F Quat}.

(** The motor command of a tick is what the mixer makes of the margined
    thrust and of the desired moment. *)
Lemma RunControl_mixer (this : QuadControl F Quat) (dt simTime : F) :
  fst (RunControl this dt simTime)
  = GenerateMotorCommands this (RunControl_collThrustCmd this dt simTime)
      (RunControl_desMoment this dt simTime).
Proof. reflexivity. Qed.

(** [LateralPositionControl] caps the magnitude of its acceleration
    command. *)
Lemma LateralPositionControl_cap (this : QuadControl F Quat)
    (posCmd velCmd pos vel accelCmdFF : V3F F) :
  LateralPositionControl this posCmd velCmd pos vel accelCmdFF
  = let accelCmd :=
      LateralPositionControl_accelCmd this posCmd velCmd pos vel accelCmdFF in
    if flt (maxAccelXY this) (mag accelCmd)
    then V3F_scale (norm accelCmd) (maxAccelXY this)
    else accelCmd.
Proof. reflexivity. Qed.

End TickStructure.

(** ** Saturation in exact arithmetic *)

Section ExactSaturation.
Local Open Scope R_scope.

Lemma CONSTRAIN_between (a low high : R) :
  low <= high -> low <= CONSTRAIN a low high <= high.
Proof.
  intros Hlh. unfold CONSTRAIN, MAX, MIN.
  destruct (flt a high) eqn:Hah.
  - apply ExactOrder.Rltb_true in Hah.
    destruct (flt a low) eqn:Hal.
    + lra.
    + apply ExactOrder.Rltb_false in Hal. lra.
  - apply ExactOrder.Rltb_false in Hah.
    destruct (flt high low) eqn:Hhl.
    + lra.
    + lra.
Qed.

(** A value within the range is left as it is. *)
Lemma CONSTRAIN_inside (a low high : R) :
  low <= a <= high -> CONSTRAIN a low high = a.
Proof.
  intros [Hla Hah]. unfold CONSTRAIN, MAX, MIN.
  destruct (flt a high) eqn:Hcmp.
  - destruct (flt a low) eqn:Hal.
    + apply ExactOrder.Rltb_true in Hal. lra.
    + reflexivity.
  - apply ExactOrder.Rltb_false in Hcmp.
    assert (a = high) as -> by lra.
    destruct (flt high low) eqn:Hhl.
    + apply ExactOrder.Rltb_true in Hhl. lra.
    + reflexivity.
Qed.

End ExactSaturation.

(** ** The mixer solves its equations *)

(** X1. In exact arithmetic, for a nonzero arm length and a nonzero
    torque coefficient, the four thrusts that GenerateMotorCommands
    computes before clamping produce the commanded moment: with
    l = L / sqrt 2, the roll moment l * (FL - FR + RL - RR) is momentCmd.x,
    the pitch moment l * (FL + FR - RL - RR) is momentCmd.y and the yaw
    moment - kappa * (FL - FR - RL + RR) is momentCmd.z. *)
Theorem mixer_realises_moment
    {Quat : Type} (this : QuadControl R Quat)
    (collThrustCmd : R) (momentCmd : V3F R) :
  L this <> 0%R -> kappa this <> 0%R ->
  let cmd := GenerateMotorCommands_mix this collThrustCmd momentCmd in
  let l := (L this / sqrt 2)%R in
  (l * (thrust0 cmd - thrust1 cmd + thrust2 cmd - thrust3 cmd))%R
  = x momentCmd /\
  (l * (thrust0 cmd + thrust1 cmd - thrust2 cmd - thrust3 cmd))%R
  = y momentCmd /\
  (- kappa this * (thrust0 cmd - thrust1 cmd - thrust2 cmd + thrust3 cmd))%R
  = z momentCmd.
Proof.
  intros HL Hkappa.
  assert (0 < sqrt 2)%R as Hsqrt by (apply sqrt_lt_R0; lra).
  cbn. repeat split; field; repeat split; lra.
Qed.

(** The scenario vehicle asked for 4.5 N and a moment of (0.1, -0.2, 0.05)
    N m. *)
Lemma mixer_realises_moment_witness :
  let cmd := GenerateMotorCommands_mix (vehicle (F:=R)) (45 / 10)%R
               (mkV3F (1 / 10) (- 2 / 10) (5 / 100))%R in
  (- kappa (vehicle (F:=R))
   * (thrust0 cmd - thrust1 cmd - thrust2 cmd + thrust3 cmd))%R
  = (5 / 100)%R.
Proof.
  refine (proj2 (proj2 (mixer_realises_moment (vehicle (F:=R)) (45 / 10)%R
                          (mkV3F (1 / 10) (- 2 / 10) (5 / 100))%R _ _)));
    cbn; lra.
Defined.

(** X2. In exact arithmetic, when each of the four thrusts computed
    before clamping lies within [minMotorThrust, maxMotorThrust],
    GenerateMotorCommands returns them unchanged: the command then
    carries the collective thrust and the moment it was asked for. *)
Theorem mixer_unsaturated
    {Quat : Type} (this : QuadControl R Quat)
    (collThrustCmd : R) (momentCmd : V3F R) :
  (forall i : nat,
     (minMotorThrust this
      <= desiredThrustsN (GenerateMotorCommands_mix this collThrustCmd momentCmd) i
      <= maxMotorThrust this)%R) ->
  GenerateMotorCommands this collThrustCmd momentCmd
  = GenerateMotorCommands_mix this collThrustCmd momentCmd.
Proof.
  intros Hin. unfold GenerateMotorCommands.
  pose proof (Hin 0%nat) as H0. pose proof (Hin 1%nat) as H1.
  pose proof (Hin 2%nat) as H2. pose proof (Hin 3%nat) as H3.
  cbn [desiredThrustsN] in H0, H1, H2, H3.
  rewrite (CONSTRAIN_inside H0), (CONSTRAIN_inside H1),
    (CONSTRAIN_inside H2), (CONSTRAIN_inside H3).
  destruct (GenerateMotorCommands_mix this collThrustCmd momentCmd).
  reflexivity.
Qed.

(** The scenario vehicle (motor range 0.1 N to 4.5 N) asked for 4.5 N
    and no moment: 1.125 N on each motor. *)
Lemma mixer_unsaturated_witness :
  GenerateMotorCommands (vehicle (F:=R)) (45 / 10)%R (mkV3F 0 0 0)%R
  = GenerateMotorCommands_mix (vehicle (F:=R)) (45 / 10)%R (mkV3F 0 0 0)%R.
Proof.
  apply mixer_unsaturated. intros i.
  rewrite GenerateMotorCommands_mix_no_moment. cbn. lra.
Defined.

(** ** The motor command of a tick *)

(** X3. If minMotorThrust <= maxMotorThrust, each of the four motor
    thrusts that RunControl returns lies within
    [minMotorThrust, maxMotorThrust], whatever the trajectory, the
    estimate, the gains and the tick duration.  This holds in every
    arithmetic that satisfies the order laws. *)
Theorem RunControl_thrusts_limited
    {F : Type} {A : Arith F} {M : Libm F} {T : Trig F} {C : Common F}
    {O : Order F} {OL : OrderLaws F}
    {Quat : Type} {QO : QuaternionOps F Quat} (this : QuadControl F Quat)
    (dt simTime : F) (i : nat) :
  fle (minMotorThrust this) (maxMotorThrust this) ->
  fle (minMotorThrust this) (desiredThrustsN (fst (RunControl this dt simTime)) i) /\
  fle (desiredThrustsN (fst (RunControl this dt simTime)) i) (maxMotorThrust this).
Proof.
  intros Hlh. rewrite RunControl_mixer. unfold GenerateMotorCommands.
  destruct i as [|[|[|i]]]; cbn [desiredThrustsN thrust0 thrust1 thrust2 thrust3];
    apply CONSTRAIN_range; assumption.
Qed.

(** One tick of 10 ms of the scenario vehicle. *)
Lemma RunControl_thrusts_limited_witness :
  fle (minMotorThrust (vehicle (F:=R)))
      (desiredThrustsN (fst (RunControl (vehicle (F:=R)) (1 / 100)%R 0%R)) 2) /\
  fle (desiredThrustsN (fst (RunControl (vehicle (F:=R)) (1 / 100)%R 0%R)) 2)
      (maxMotorThrust (vehicle (F:=R))).
Proof.
  apply (RunControl_thrusts_limited (vehicle (F:=R)) (1 / 100)%R 0%R 2).
  cbn. lra.
Defined.

Section ExactTick.
Context {Quat : Type} {QO : QuaternionOps R Quat}.
Variable this : QuadControl R Quat.
Local Open Scope R_scope.

(** The margined thrust is the thrust of the altitude controller
    constrained to the motor range shrunk by a tenth at each end, times
    four. *)
Lemma RunControl_collThrustCmd_range (dt simTime : R) :
  minMotorThrust this <= maxMotorThrust this ->
  let thrustMargin := 1 / 10 * (maxMotorThrust this - minMotorThrust this) in
  (minMotorThrust this + thrustMargin) * 4
  <= RunControl_collThrustCmd this dt simTime
  <= (maxMotorThrust this - thrustMargin) * 4.
Proof.
  intros Hlh thrustMargin.
  apply (CONSTRAIN_between
           (fst (AltitudeControl this
                   (z (position (GetNextTrajectoryPoint this simTime)))
                   (z (velocity (GetNextTrajectoryPoint this simTime)))
                   (z (estPos this)) (z (estVel this)) (estAtt this)
                   (z (accel (GetNextTrajectoryPoint this simTime))) dt))
           (low := (minMotorThrust this + thrustMargin) * 4)
           (high := (maxMotorThrust this - thrustMargin) * 4)).
  unfold thrustMargin. lra.
Qed.

End ExactTick.

(** X4. In exact arithmetic, if minMotorThrust <= maxMotorThrust, the
    collective thrust that RunControl passes to the attitude controller
    and to the mixer lies within
    [4 (minMotorThrust + margin), 4 (maxMotorThrust - margin)], where
    margin is a tenth of maxMotorThrust - minMotorThrust: whatever
    AltitudeControl returns, a share of the motor range stays free for
    the moments. *)
Theorem RunControl_thrust_margin
    {Quat : Type} {QO : QuaternionOps R Quat} (this : QuadControl R Quat)
    (dt simTime : R) :
  (minMotorThrust this <= maxMotorThrust this)%R ->
  let thrustMargin := (1 / 10 * (maxMotorThrust this - minMotorThrust this))%R in
  ((minMotorThrust this + thrustMargin) * 4
   <= RunControl_collThrustCmd this dt simTime
   <= (maxMotorThrust this - thrustMargin) * 4)%R /\
  fst (RunControl this dt simTime)
  = GenerateMotorCommands this (RunControl_collThrustCmd this dt simTime)
      (RunControl_desMoment this dt simTime).
Proof.
  intros Hlh thrustMargin. split.
  - now apply RunControl_collThrustCmd_range.
  - reflexivity.
Qed.

(** The scenario vehicle, motor range 0.1 N to 4.5 N: the collective
    thrust stays within 2.16 N and 16.24 N. *)
Lemma RunControl_thrust_margin_witness :
  (216 / 100 <= RunControl_collThrustCmd (vehicle (F:=R)) (1 / 100) 0
   <= 1624 / 100)%R.
Proof.
  assert (minMotorThrust (vehicle (F:=R)) <= maxMotorThrust (vehicle (F:=R)))%R
    as Hlh by (cbn; lra).
  pose proof (proj1 (RunControl_thrust_margin (vehicle (F:=R))
                       (1 / 100)%R 0%R Hlh)) as Hrange.
  change (minMotorThrust (vehicle (F:=R))) with (1 / 10)%R in Hrange.
  change (maxMotorThrust (vehicle (F:=R))) with (45 / 10)%R in Hrange.
  lra.
Defined.

(** X5. In exact arithmetic, if 0 <= minMotorThrust < maxMotorThrust, the
    collective thrust that RunControl passes to RollPitchControl is
    positive: within a tick the attitude controller never takes its
    zero-rate branch. *)
Theorem RunControl_thrust_positive
    {Quat : Type} {QO : QuaternionOps R Quat} (this : QuadControl R Quat)
    (dt simTime : R) :
  (0 <= minMotorThrust this)%R ->
  (minMotorThrust this < maxMotorThrust this)%R ->
  (0 < RunControl_collThrustCmd this dt simTime)%R /\
  flt (ofZ 0) (RunControl_collThrustCmd this dt simTime) = true.
Proof.
  intros Hmin Hlt.
  assert (0 < RunControl_collThrustCmd this dt simTime)%R as Hpos.
  { pose proof (@RunControl_collThrustCmd_range _ _ this dt simTime) as Hrange.
    cbv zeta in Hrange. lra. }
  split; [exact Hpos|]. now apply ExactOrder.Rltb_true.
Qed.

Lemma RunControl_thrust_positive_witness :
  (0 < RunControl_collThrustCmd (vehicle (F:=R)) (1 / 100) 0)%R.
Proof.
  refine (proj1 (RunControl_thrust_positive (vehicle (F:=R))
                   (1 / 100)%R 0%R _ _)); cbn; lra.
Defined.

(** ** Body rates *)


(** X6. In exact arithmetic, BodyRateControl commands no moment when the
    body rates are the desired ones; and with positive moments of inertia
    and positive gains the moment about each axis has the sign of the
    rate error on that axis and vanishes only with it. *)
Theorem BodyRateControl_feedback
    {Quat : Type} (this : QuadControl R Quat) (pqrCmd pqr : V3F R) :
  BodyRateControl this pqr pqr = mkV3F 0%R 0%R 0%R /\
  ((0 < Ixx this)%R -> (0 < Iyy this)%R -> (0 < Izz this)%R ->
   (0 < x (kpPQR this))%R -> (0 < y (kpPQR this))%R -> (0 < z (kpPQR this))%R ->
   let momentCmd := BodyRateControl this pqrCmd pqr in
   ((0 < x momentCmd <-> x pqr < x pqrCmd) /\
    (x momentCmd = 0 <-> x pqrCmd = x pqr))%R /\
   ((0 < y momentCmd <-> y pqr < y pqrCmd) /\
    (y momentCmd = 0 <-> y pqrCmd = y pqr))%R /\
   ((0 < z momentCmd <-> z pqr < z pqrCmd) /\
    (z momentCmd = 0 <-> z pqrCmd = z pqr))%R).
Proof.
  split.
  - unfold BodyRateControl, V3F_mul, V3F_sub. cbn. f_equal; ring.
  - intros HIx HIy HIz Hkx Hky Hkz. cbn.
    assert (0 < Ixx this * x (kpPQR this))%R as Hx by (apply Rmult_lt_0_compat; assumption).
    assert (0 < Iyy this * y (kpPQR this))%R as Hy by (apply Rmult_lt_0_compat; assumption).
    assert (0 < Izz this * z (kpPQR this))%R as Hz by (apply Rmult_lt_0_compat; assumption).
    repeat split; intros; nra.
Qed.

(** The scenario vehicle rolling at 0.5 rad/s while asked to roll at
    1 rad/s: a positive roll moment. *)
Lemma BodyRateControl_feedback_witness :
  (0 < x (BodyRateControl (vehicle (F:=R)) (mkV3F 1 0 0) (mkV3F (1 / 2) 0 0)))%R.
Proof.
  refine (proj2 (proj1 (proj1 (proj2 (BodyRateControl_feedback (vehicle (F:=R))
            (mkV3F 1 0 0)%R (mkV3F (1 / 2) 0 0)%R) _ _ _ _ _ _))) _);
    cbn; lra.
Defined.

Section ExactNoGain.
Context {Quat : Type} {QO : QuaternionOps R Quat}.
Local Open Scope R_scope.


End ExactNoGain.



(** ** Roll and pitch rates *)

(** X8. RollPitchControl leaves the Z component of the rates at zero on
    both of its branches, and its result does not depend on the Z
    component of the desired acceleration.  This holds in every
    arithmetic. *)
Theorem RollPitchControl_z
    {F : Type} {A : Arith F} {T : Trig F}
    {Quat : Type} {QO : QuaternionOps F Quat} (this : QuadControl F Quat)
    (ax ay az az' : F) (attitude : Quat) (collThrustCmd : F) :
  z (RollPitchControl this (mkV3F ax ay az) attitude collThrustCmd) = ofZ 0 /\
  RollPitchControl this (mkV3F ax ay az) attitude collThrustCmd
  = RollPitchControl this (mkV3F ax ay az') attitude collThrustCmd.
Proof.
  unfold RollPitchControl.
  destruct (flt (ofZ 0) collThrustCmd); split; reflexivity.
Qed.

(** X9. For a positive thrust command and a tilt limit whose sine s is
    not below its opposite, the rates that RollPitchControl returns are
    those of a target tilt (b_x, b_y) that respects the limit: both
    components lie within [-s, s], and the rates are
    ((R10 kpBank (b_x - R02) - R00 kpBank (b_y - R12)) / R22,
     (R11 kpBank (b_x - R02) - R01 kpBank (b_y - R12)) / R22, 0).
    This holds in every arithmetic that satisfies the order laws. *)
Theorem RollPitchControl_tilt_limited
    {F : Type} {A : Arith F} {T : Trig F} {O : Order F} {OL : OrderLaws F}
    {Quat : Type} {QO : QuaternionOps F Quat} (this : QuadControl F Quat)
    (accelCmd : V3F F) (attitude : Quat) (collThrustCmd : F) :
  flt (ofZ 0) collThrustCmd = true ->
  fle (fneg (sin (maxTiltAngle this))) (sin (maxTiltAngle this)) ->
  let R := RotationMatrix_IwrtB attitude in
  let s := sin (maxTiltAngle this) in
  exists b_x b_y : F,
    (fle (fneg s) b_x /\ fle b_x s) /\
    (fle (fneg s) b_y /\ fle b_y s) /\
    RollPitchControl this accelCmd attitude collThrustCmd
    = mkV3F
        (fdiv (fsub (fmul (R 1%nat 0%nat) (fmul (kpBank this) (fsub b_x (R 0%nat 2%nat))))
                    (fmul (R 0%nat 0%nat) (fmul (kpBank this) (fsub b_y (R 1%nat 2%nat)))))
              (R 2%nat 2%nat))
        (fdiv (fsub (fmul (R 1%nat 1%nat) (fmul (kpBank this) (fsub b_x (R 0%nat 2%nat))))
                    (fmul (R 0%nat 1%nat) (fmul (kpBank this) (fsub b_y (R 1%nat 2%nat)))))
              (R 2%nat 2%nat))
        (ofZ 0).
Proof.
  intros Hpos Hs R s.
  set (c := fdiv (fneg collThrustCmd) (mass this)).
  exists (CONSTRAIN (fdiv (x accelCmd) c) (fneg s) s),
         (CONSTRAIN (fdiv (y accelCmd) c) (fneg s) s).
  split; [|split].
  - now apply CONSTRAIN_range.
  - now apply CONSTRAIN_range.
  - unfold RollPitchControl. rewrite Hpos. reflexivity.
Qed.

(** The scenario vehicle (tilt limit 0.7 rad), level, asked for
    (3, -4, 0) m/s2 with a thrust of 5 N. *)
Lemma RollPitchControl_tilt_limited_witness :
  let s := sin (maxTiltAngle (vehicle (F:=R))) in
  exists b_x b_y : R,
    (fle (fneg s) b_x /\ fle b_x s) /\
    (fle (fneg s) b_y /\ fle b_y s) /\
    RollPitchControl (vehicle (F:=R)) (mkV3F 3 (-4) 0)%R level 5%R
    = mkV3F
        ((0 * (kpBank (vehicle (F:=R)) * (b_x - 0))
          - 1 * (kpBank (vehicle (F:=R)) * (b_y - 0))) / 1)%R
        ((1 * (kpBank (vehicle (F:=R)) * (b_x - 0))
          - 0 * (kpBank (vehicle (F:=R)) * (b_y - 0))) / 1)%R
        0%R.
Proof.
  refine (RollPitchControl_tilt_limited (vehicle (F:=R)) (mkV3F 3 (-4) 0)%R
            level 5%R _ _).
  - apply ExactOrder.Rltb_true. cbn. lra.
  - assert (0 <= Rtrigo_def.sin (7 / 10))%R as Hsin.
    { pose proof PI2_3_2. apply sin_ge_0; lra. }
    change (- Rtrigo_def.sin (7 / 10) <= Rtrigo_def.sin (7 / 10))%R. lra.
Defined.

(** ** The horizontal acceleration command *)

Section ExactLateralCommand.
Context {Quat : Type}.
Variable this : QuadControl R Quat.
Local Open Scope R_scope.

Lemma LateralPositionControl_accelCmd_z (posCmd velCmd pos vel accelCmdFF : V3F R) :
  z (LateralPositionControl_accelCmd this posCmd velCmd pos vel accelCmdFF) = 0.
Proof.
  unfold LateralPositionControl_accelCmd, V3F_add, V3F_mul, V3F_sub.
  cbn [x y z]. cbn [fadd fsub fmul ofZ Exact.arithR]. ring.
Qed.

Lemma mag_zero : mag (mkV3F 0 0 0) = 0.
Proof.
  unfold mag. cbn. replace (0 * 0 + 0 * 0 + 0 * 0) with 0 by ring. apply sqrt_0.
Qed.

End ExactLateralCommand.

(** X10. In exact arithmetic, LateralPositionControl does not depend on
    the Z components of the desired position, of the desired velocity and
    of the feed-forward acceleration, and the Z component of the
    acceleration it returns is 0. *)
Theorem LateralPositionControl_horizontal
    {Quat : Type} (this : QuadControl R Quat)
    (posCmd velCmd pos vel accelCmdFF : V3F R) (pz vz az : R) :
  LateralPositionControl this posCmd velCmd pos vel accelCmdFF
  = LateralPositionControl this
      (mkV3F (x posCmd) (y posCmd) pz) (mkV3F (x velCmd) (y velCmd) vz)
      pos vel (mkV3F (x accelCmdFF) (y accelCmdFF) az) /\
  z (LateralPositionControl this posCmd velCmd pos vel accelCmdFF) = 0%R.
Proof.
  split; [reflexivity|].
  rewrite LateralPositionControl_cap. cbv zeta.
  pose proof (LateralPositionControl_accelCmd_z this posCmd velCmd pos vel
                accelCmdFF) as Hz.
  destruct (flt _ _).
  - unfold V3F_scale, norm. cbn [z]. rewrite Hz.
    cbn [fmul fdiv Exact.arithR]. unfold Rdiv. ring.
  - exact Hz.
Qed.

(** X11. In exact arithmetic, if maxAccelXY is not negative, the
    magnitude of the acceleration that LateralPositionControl returns
    never exceeds maxAccelXY. *)
Theorem LateralPositionControl_accel_limited
    {Quat : Type} (this : QuadControl R Quat)
    (posCmd velCmd pos vel accelCmdFF : V3F R) :
  (0 <= maxAccelXY this)%R ->
  (mag (LateralPositionControl this posCmd velCmd pos vel accelCmdFF)
   <= maxAccelXY this)%R.
Proof.
  intros Hlimit. rewrite LateralPositionControl_cap. cbv zeta.
  destruct (flt _ _) eqn:Hcmp.
  - apply ExactOrder.Rltb_true in Hcmp.
    rewrite mag_scale_norm; lra.
  - now apply ExactOrder.Rltb_false in Hcmp.
Qed.

(** The scenario vehicle (maxAccelXY = 12) a hundred metres north of its
    setpoint. *)
Lemma LateralPositionControl_accel_limited_witness :
  (mag (LateralPositionControl (vehicle (F:=R))
          (mkV3F 0 0 (-1)) (mkV3F 0 0 0) (mkV3F 100 0 (-1)) (mkV3F 0 0 0)
          (mkV3F 0 0 0))
   <= 12)%R.
Proof.
  refine (LateralPositionControl_accel_limited (vehicle (F:=R))
            (mkV3F 0 0 (-1))%R (mkV3F 0 0 0)%R (mkV3F 100 0 (-1))%R
            (mkV3F 0 0 0)%R (mkV3F 0 0 0)%R _).
  cbn. lra.
Defined.



(** X12. In exact arithmetic, on its setpoint (horizontal position and
    velocity equal to the desired ones, the desired speed within
    maxSpeedXY), with no feed-forward acceleration and a limit maxAccelXY
    that is not negative, LateralPositionControl returns the zero
    acceleration. *)
Theorem LateralPositionControl_on_setpoint
    {Quat : Type} (this : QuadControl R Quat)
    (posCmd velCmd pos vel accelCmdFF : V3F R) :
  x posCmd = x pos -> y posCmd = y pos ->
  x velCmd = x vel -> y velCmd = y vel ->
  x accelCmdFF = 0%R -> y accelCmdFF = 0%R ->
  (mag (mkV3F (x velCmd) (y velCmd) 0%R) <= maxSpeedXY this)%R ->
  (0 <= maxAccelXY this)%R ->
  LateralPositionControl this posCmd velCmd pos vel accelCmdFF
  = mkV3F 0%R 0%R 0%R.
Proof.
  intros Hpx Hpy Hvx Hvy Hax Hay Hspeed Haccel.
  assert (LateralPositionControl_capVelCmd this velCmd
          = mkV3F (x velCmd) (y velCmd) 0%R) as Hcap.
  { unfold LateralPositionControl_capVelCmd.
    change (mkV3F (x velCmd) (y velCmd) (ofZ 0))
      with (mkV3F (x velCmd) (y velCmd) 0%R).
    destruct (flt _ _) eqn:Hcmp; [|reflexivity].
    apply ExactOrder.Rltb_true in Hcmp. lra. }
  assert (LateralPositionControl_accelCmd this posCmd velCmd pos vel accelCmdFF
          = mkV3F 0%R 0%R 0%R) as Hzero.
  { unfold LateralPositionControl_accelCmd. rewrite Hcap.
    unfold V3F_add, V3F_mul, V3F_sub. cbn.
    rewrite Hpx, Hpy, Hvx, Hvy, Hax, Hay. f_equal; ring. }
  rewrite LateralPositionControl_cap. cbv zeta. rewrite Hzero.
  destruct (flt _ _) eqn:Hcmp; [|reflexivity].
  apply ExactOrder.Rltb_true in Hcmp. rewrite mag_zero in Hcmp. lra.
Qed.

(** The scenario vehicle hovering on its setpoint. *)
Lemma LateralPositionControl_on_setpoint_witness :
  LateralPositionControl (vehicle (F:=R))
    (mkV3F 0 0 (-1))%R (mkV3F 0 0 0)%R (mkV3F 0 0 (-1))%R (mkV3F 0 0 0)%R
    (mkV3F 0 0 0)%R
  = mkV3F 0%R 0%R 0%R.
Proof.
  apply LateralPositionControl_on_setpoint; try reflexivity.
  - cbn [x y]. rewrite mag_zero. cbn. lra.
  - cbn. lra.
Defined.

(** ** The collective thrust *)

Section ExactThrust.
Context {Quat : Type} {QO : QuaternionOps R Quat}.
Variable this : QuadControl R Quat.
Local Open Scope R_scope.

(** The thrust is minus the mass times the constrained acceleration. *)
Lemma AltitudeControl_saturation
    (posZCmd velZCmd posZ velZ : R) (attitude : Quat) (accelZCmd dt : R) :
  fst (AltitudeControl this posZCmd velZCmd posZ velZ attitude accelZCmd dt)
  = - mass this
    * CONSTRAIN
        (AltitudeControl_acc this posZCmd velZCmd posZ velZ attitude accelZCmd dt)
        (- maxAscentRate this / dt) (maxAscentRate this / dt).
Proof. reflexivity. Qed.

(** On the setpoint, at rest, with an empty accumulator, the commanded
    acceleration is minus the gravitational constant over R(2,2). *)
Lemma AltitudeControl_acc_on_setpoint (posZ : R) (attitude : Quat) (dt : R) :
  integratedAltitudeError this = 0 ->
  AltitudeControl_acc this posZ 0 posZ 0 attitude 0 dt
  = - (981 / 100) / RotationMatrix_IwrtB attitude 2%nat 2%nat.
Proof.
  intros Hacc. unfold AltitudeControl_acc. rewrite Hacc. cbn.
  unfold Rdiv. ring.
Qed.

End ExactThrust.

(** X13. In exact arithmetic, for a mass and a limit maxAscentRate that
    are not negative and a positive tick duration, the thrust that
    AltitudeControl returns is at most mass * maxAscentRate / dt in
    absolute value, whatever the errors, the gains and the attitude. *)
Theorem AltitudeControl_bounded_thrust
    {Quat : Type} {QO : QuaternionOps R Quat} (this : QuadControl R Quat)
    (posZCmd velZCmd posZ velZ : R) (attitude : Quat) (accelZCmd dt : R) :
  (0 <= mass this)%R -> (0 <= maxAscentRate this)%R -> (0 < dt)%R ->
  (Rabs (fst (AltitudeControl this posZCmd velZCmd posZ velZ attitude
                accelZCmd dt))
   <= mass this * (maxAscentRate this / dt))%R.
Proof.
  intros Hmass Hrate Hdt. rewrite AltitudeControl_saturation.
  assert (0 <= maxAscentRate this / dt)%R as Hbound.
  { apply Rmult_le_pos; [assumption|]. apply Rlt_le, Rinv_0_lt_compat, Hdt. }
  assert (- maxAscentRate this / dt = - (maxAscentRate this / dt))%R as Hlow
    by (field; lra).
  pose proof (@CONSTRAIN_between
                (AltitudeControl_acc this posZCmd velZCmd posZ velZ attitude
                   accelZCmd dt)
                (- maxAscentRate this / dt)%R (maxAscentRate this / dt)%R)
    as Hrange.
  rewrite Hlow in *.
  specialize (Hrange ltac:(lra)).
  apply Rabs_le. split; nra.
Qed.

(** The scenario vehicle (0.5 kg, maxAscentRate = 5) a thousand metres
    below its setpoint, for a tick of 10 ms: at most 250 N. *)
Lemma AltitudeControl_bounded_thrust_witness :
  (Rabs (fst (AltitudeControl (vehicle (F:=R)) (-1000) 0 0 0 level 0 (1 / 100)))
   <= 5 / 10 * (5 / (1 / 100)))%R.
Proof.
  refine (AltitudeControl_bounded_thrust (vehicle (F:=R)) (-1000)%R 0%R 0%R
            0%R level 0%R (dt:=(1 / 100)%R) _ _ _); cbn; lra.
Defined.



(** X14. In exact arithmetic, hovering on its altitude setpoint (no
    position error, no vertical velocity, no feed-forward acceleration,
    an empty accumulator) with R(2,2) > 0, AltitudeControl returns the
    weight divided by R(2,2), mass * 9.81 / R(2,2), as long as the
    acceleration 9.81 / R(2,2) is within the bound maxAscentRate / dt;
    and it leaves the accumulator empty. *)
Theorem AltitudeControl_weight
    {Quat : Type} {QO : QuaternionOps R Quat} (this : QuadControl R Quat)
    (posZ : R) (attitude : Quat) (dt : R) :
  integratedAltitudeError this = 0%R ->
  (0 < RotationMatrix_IwrtB attitude 2%nat 2%nat)%R ->
  (981 / 100 / RotationMatrix_IwrtB attitude 2%nat 2%nat
   <= maxAscentRate this / dt)%R ->
  fst (AltitudeControl this posZ 0%R posZ 0%R attitude 0%R dt)
  = (mass this * (981 / 100) / RotationMatrix_IwrtB attitude 2%nat 2%nat)%R /\
  integratedAltitudeError
    (snd (AltitudeControl this posZ 0%R posZ 0%R attitude 0%R dt)) = 0%R.
Proof.
  intros Hacc Hbz Hbound. split.
  - rewrite AltitudeControl_saturation, (AltitudeControl_acc_on_setpoint _ _ _ _ Hacc).
    assert (0 < 981 / 100 / RotationMatrix_IwrtB attitude 2%nat 2%nat)%R as Hg.
    { apply Rmult_lt_0_compat; [lra|]. apply Rinv_0_lt_compat, Hbz. }
    assert (- maxAscentRate this / dt = - (maxAscentRate this / dt))%R as Hlow
      by (unfold Rdiv; ring).
    rewrite CONSTRAIN_inside.
    + field. lra.
    + rewrite Hlow.
      replace (- (981 / 100) / RotationMatrix_IwrtB attitude 2%nat 2%nat)%R
        with (- (981 / 100 / RotationMatrix_IwrtB attitude 2%nat 2%nat))%R
        by (unfold Rdiv; ring).
      lra.
  - rewrite AltitudeControl_accumulator, Hacc. ring.
Qed.

(** The scenario vehicle, level: 0.5 * 9.81 N. *)
Lemma AltitudeControl_weight_witness :
  fst (AltitudeControl (vehicle (F:=R)) (-1)%R 0%R (-1)%R 0%R level 0%R (1 / 100)%R)
  = (5 / 10 * (981 / 100) / 1)%R.
Proof.
  refine (proj1 (AltitudeControl_weight (vehicle (F:=R)) (-1)%R level
                   (dt:=(1 / 100)%R) _ _ _)); cbn; try reflexivity; lra.
Defined.

(** X15. In exact arithmetic, after any sequence of calls of
    AltitudeControl with the tick duration dt the accumulator is its
    initial value plus dt times the sum of the altitude errors of the
    calls; started from the object that Init leaves, it is dt times that
    sum. *)
Theorem AltitudeControl_accumulator_sum
    {Quat : Type} {QO : QuaternionOps R Quat} (this : QuadControl R Quat)
    (config : ParamsHandle R) (dt : R) (inputs : list (AltitudeInput R Quat)) :
  integratedAltitudeError (AltitudeTicks this dt inputs)
  = (integratedAltitudeError this + dt * AltitudeErrorSum inputs)%R /\
  integratedAltitudeError (AltitudeTicks (Init config this) dt inputs)
  = (dt * AltitudeErrorSum inputs)%R.
Proof.
  assert (forall q : QuadControl R Quat,
            integratedAltitudeError (AltitudeTicks q dt inputs)
            = (integratedAltitudeError q + dt * AltitudeErrorSum inputs)%R)
    as Hsum.
  { induction inputs as [|i rest IH]; intros q; cbn [AltitudeTicks AltitudeErrorSum].
    - cbn. ring.
    - rewrite IH, AltitudeControl_accumulator. cbn. ring. }
  split.
  - apply Hsum.
  - rewrite Hsum. cbn. ring.
Qed.

(** ** Wrapping the desired yaw *)

Section ExactWrap.
Local Open Scope R_scope.

(** The error is computed from the wrapped desired yaw. *)
Lemma YawControl_err_wrapped (yawCmd yaw : R) :
  YawControl_err yawCmd yaw
  = let err := YawControl_yawCmdToPi yawCmd - yaw in
    let err := if flt PI err then err - 2 * PI else err in
    if flt err (- PI) then err + 2 * PI else err.
Proof. reflexivity. Qed.

(** Two values of [[0, b)] that differ by a multiple of [b] are equal. *)
Lemma range_unique (u v b : R) (k : Z) :
  0 <= u < b -> 0 <= v < b -> u - v = IZR k * b -> u = v.
Proof.
  intros Hu Hv Hdiff.
  assert (0 < b) as Hb by lra.
  assert (k = 0%Z) as ->.
  { assert (IZR (-1) < IZR k) as Hlow by (cbn; nra).
    assert (IZR k < IZR 1) as Hhigh by (cbn; nra).
    apply lt_IZR in Hlow, Hhigh. lia. }
  lra.
Qed.

Lemma fmodR_small (a b : R) : 0 <= a < b -> Exact.fmodR a b = a.
Proof.
  intros Ha.
  apply (@range_unique _ _ b (- Exact.Rtrunc (a / b))).
  - apply fmodR_range; lra.
  - exact Ha.
  - unfold Exact.fmodR. rewrite opp_IZR. ring.
Qed.

Lemma fmodR_shift (a b : R) :
  0 <= a -> 0 < b -> Exact.fmodR (a + b) b = Exact.fmodR a b.
Proof.
  intros Ha Hb.
  apply (@range_unique _ _ b
           (1 - Exact.Rtrunc ((a + b) / b) + Exact.Rtrunc (a / b))).
  - apply fmodR_range; lra.
  - apply fmodR_range; lra.
  - unfold Exact.fmodR. rewrite plus_IZR, minus_IZR. ring.
Qed.

(** The wrapped desired yaw differs from the desired yaw by a whole
    number of turns. *)
Lemma yawCmdToPi_turns (yawCmd : R) :
  exists k : Z, YawControl_yawCmdToPi yawCmd = yawCmd + IZR k * (2 * PI).
Proof.
  unfold YawControl_yawCmdToPi. destruct (flt _ _).
  - exists (- Exact.Rtrunc (yawCmd / (2 * PI)))%Z.
    cbn. unfold Exact.fmodR. rewrite opp_IZR. ring.
  - exists (Exact.Rtrunc (- yawCmd / (2 * PI))).
    cbn. unfold Exact.fmodR. ring.
Qed.

(** Within one turn of zero the desired yaw is left as it is. *)
Lemma yawCmdToPi_small (yawCmd : R) :
  - (2 * PI) < yawCmd < 2 * PI -> YawControl_yawCmdToPi yawCmd = yawCmd.
Proof.
  intros Hsmall. unfold YawControl_yawCmdToPi.
  destruct (flt _ _) eqn:Hcmp.
  - apply ExactOrder.Rltb_true in Hcmp. cbn in *.
    apply fmodR_small. lra.
  - apply ExactOrder.Rltb_false in Hcmp. cbn in *.
    rewrite fmodR_small; lra.
Qed.

(** One more turn on a positive desired yaw, one turn less on another,
    wrap to the same angle. *)
Lemma yawCmdToPi_period (yawCmd : R) :
  (0 < yawCmd ->
   YawControl_yawCmdToPi (yawCmd + 2 * PI) = YawControl_yawCmdToPi yawCmd) /\
  (yawCmd <= 0 ->
   YawControl_yawCmdToPi (yawCmd - 2 * PI) = YawControl_yawCmdToPi yawCmd).
Proof.
  pose proof PI_RGT_0 as Hpi. unfold YawControl_yawCmdToPi. split; intros Hsign.
  - change (flt (ofZ 0) (yawCmd + 2 * PI)) with (Exact.Rltb 0 (yawCmd + 2 * PI)).
    change (flt (ofZ 0) yawCmd) with (Exact.Rltb 0 yawCmd).
    rewrite !(proj2 (ExactOrder.Rltb_true _ _)) by lra.
    cbn. apply fmodR_shift; lra.
  - change (flt (ofZ 0) (yawCmd - 2 * PI)) with (Exact.Rltb 0 (yawCmd - 2 * PI)).
    change (flt (ofZ 0) yawCmd) with (Exact.Rltb 0 yawCmd).
    rewrite !(proj2 (ExactOrder.Rltb_false _ _)) by lra.
    cbn. replace (- (yawCmd - 2 * PI)) with (- yawCmd + 2 * PI) by ring.
    rewrite fmodR_shift; lra.
Qed.

End ExactWrap.



(** X16. In exact arithmetic, when the desired yaw lies within one turn
    of zero (strictly between -2 pi and 2 pi) and differs from the current
    yaw by at most pi, no wrapping or correction applies: the yaw error is
    yawCmd - yaw and YawControl returns kpYaw * (yawCmd - yaw); on the
    desired heading it returns 0. *)
Theorem YawControl_small_error
    {Quat : Type} (this : QuadControl R Quat) (yawCmd yaw : R) :
  (- (2 * PI) < yawCmd < 2 * PI)%R ->
  (- PI <= yawCmd - yaw <= PI)%R ->
  YawControl_err yawCmd yaw = (yawCmd - yaw)%R /\
  YawControl this yawCmd yaw = (kpYaw this * (yawCmd - yaw))%R /\
  (yawCmd = yaw -> YawControl this yawCmd yaw = 0%R).
Proof.
  intros Hcmd Herr.
  assert (YawControl_err yawCmd yaw = (yawCmd - yaw)%R) as Heq.
  { rewrite YawControl_err_wrapped, (yawCmdToPi_small Hcmd). cbv zeta.
    destruct (flt PI (yawCmd - yaw)%R) eqn:Hhigh.
    { apply ExactOrder.Rltb_true in Hhigh. lra. }
    destruct (flt (yawCmd - yaw)%R (- PI)%R) eqn:Hlow.
    { apply ExactOrder.Rltb_true in Hlow. lra. }
    reflexivity. }
  split; [exact Heq|]. unfold YawControl. rewrite Heq. split.
  - reflexivity.
  - intros ->. cbn. ring.
Qed.

(** Heading at 3 rad, asked to head at 4 rad. *)
Lemma YawControl_small_error_witness :
  YawControl_err 4%R 3%R = (4 - 3)%R.
Proof.
  refine (proj1 (YawControl_small_error (vehicle (F:=R)) (yawCmd:=4%R)
                   (yaw:=3%R) _ _));
    pose proof PI2_3_2; lra.
Defined.

(** X17. In exact arithmetic, for every desired and every current yaw,
    the yaw error that YawControl multiplies by kpYaw differs from
    yawCmd - yaw by a whole number of turns: wrapping and correcting
    never change the direction that is asked for. *)
Theorem YawControl_err_turns (yawCmd yaw : R) :
  exists k : Z,
    YawControl_err yawCmd yaw = (yawCmd - yaw + IZR k * (2 * PI))%R.
Proof.
  destruct (yawCmdToPi_turns yawCmd) as [k Hk].
  rewrite YawControl_err_wrapped, Hk. cbv zeta.
  destruct (flt PI _).
  - destruct (flt _ (- PI)%R).
    + exists k. ring.
    + exists (k - 1)%Z. rewrite minus_IZR. ring.
  - destruct (flt _ (- PI)%R).
    + exists (k + 1)%Z. rewrite plus_IZR. ring.
    + exists k. ring.
Qed.

(** X18. In exact arithmetic the yaw error is periodic in the desired
    yaw on each side of zero: adding a turn to a positive desired yaw, or
    taking a turn from a desired yaw that is not positive, leaves the
    error, and so the commanded rate, unchanged. *)
Theorem YawControl_err_periodic (yawCmd yaw : R) :
  ((0 < yawCmd)%R ->
   YawControl_err (yawCmd + 2 * PI)%R yaw = YawControl_err yawCmd yaw) /\
  ((yawCmd <= 0)%R ->
   YawControl_err (yawCmd - 2 * PI)%R yaw = YawControl_err yawCmd yaw).
Proof.
  destruct (yawCmdToPi_period yawCmd) as [Hpos Hneg].
  split; intros Hsign; rewrite !YawControl_err_wrapped.
  - now rewrite (Hpos Hsign).
  - now rewrite (Hneg Hsign).
Qed.

(** A desired yaw of 1 rad and of 1 rad plus a turn. *)
Lemma YawControl_err_periodic_witness :
  YawControl_err (1 + 2 * PI)%R 0%R = YawControl_err 1%R 0%R.
Proof.
  refine (proj1 (YawControl_err_periodic 1%R 0%R) _). lra.
Defined.

(** ** Feedback of the altitude controller *)

Section ExactMonotone.
Local Open Scope R_scope.

(** [CONSTRAIN] is monotone in the value it constrains. *)
Lemma CONSTRAIN_monotone (a b low high : R) :
  a <= b -> CONSTRAIN a low high <= CONSTRAIN b low high.
Proof.
  intros Hab. unfold CONSTRAIN, MAX, MIN.
  destruct (flt a high) eqn:Ha;
    [apply ExactOrder.Rltb_true in Ha | apply ExactOrder.Rltb_false in Ha];
    (destruct (flt b high) eqn:Hb;
     [apply ExactOrder.Rltb_true in Hb | apply ExactOrder.Rltb_false in Hb]);
    repeat match goal with
    | |- context [flt ?u ?v] =>
        let H := fresh "Hcmp" in
        destruct (flt u v) eqn:H;
        [apply ExactOrder.Rltb_true in H | apply ExactOrder.Rltb_false in H]
    end; lra.
Qed.

End ExactMonotone.

(** X20. In exact arithmetic, with a mass, gains kpPosZ and KiPosZ and a
    tick duration that are not negative and R(2,2) > 0, the thrust that
    AltitudeControl returns does not increase with the desired Z
    position: asking for a lower altitude (a larger Z, which points down)
    never asks for more thrust. *)
Theorem AltitudeControl_feedback
    {Quat : Type} {QO : QuaternionOps R Quat} (this : QuadControl R Quat)
    (posZCmd1 posZCmd2 velZCmd posZ velZ : R) (attitude : Quat)
    (accelZCmd dt : R) :
  (0 <= mass this)%R -> (0 <= kpPosZ this)%R -> (0 <= KiPosZ this)%R ->
  (0 <= dt)%R -> (0 < RotationMatrix_IwrtB attitude 2%nat 2%nat)%R ->
  (posZCmd1 <= posZCmd2)%R ->
  (fst (AltitudeControl this posZCmd2 velZCmd posZ velZ attitude accelZCmd dt)
   <= fst (AltitudeControl this posZCmd1 velZCmd posZ velZ attitude accelZCmd dt))%R.
Proof.
  intros Hmass Hkp Hki Hdt Hbz Hcmd.
  rewrite !AltitudeControl_saturation.
  assert (AltitudeControl_acc this posZCmd1 velZCmd posZ velZ attitude accelZCmd dt
          <= AltitudeControl_acc this posZCmd2 velZCmd posZ velZ attitude accelZCmd dt)%R
    as Hacc.
  { unfold AltitudeControl_acc. cbn.
    apply Rmult_le_compat_r.
    - apply Rlt_le, Rinv_0_lt_compat, Hbz.
    - assert (0 <= KiPosZ this * dt)%R by (apply Rmult_le_pos; assumption).
      nra. }
  pose proof (CONSTRAIN_monotone (- maxAscentRate this / dt)%R
                (maxAscentRate this / dt)%R Hacc) as Hmono.
  nra.
Qed.

(** The scenario vehicle asked to hold 1 m and then 2 m of altitude. *)
Lemma AltitudeControl_feedback_witness :
  (fst (AltitudeControl (vehicle (F:=R)) (-1) 0 (-1) 0 level 0 (1 / 100))
   <= fst (AltitudeControl (vehicle (F:=R)) (-2) 0 (-1) 0 level 0 (1 / 100)))%R.
Proof.
  refine (AltitudeControl_feedback (vehicle (F:=R)) (posZCmd1:=(-2)%R)
            (posZCmd2:=(-1)%R) 0%R (-1)%R 0%R level 0%R (dt:=(1 / 100)%R)
            _ _ _ _ _ _); cbn; lra.
Defined.

(** ** Roll and pitch at rest *)

Section ExactRollPitch.
Context {Quat : Type} {QO : QuaternionOps R Quat}.
Local Open Scope R_scope.


End ExactRollPitch.

(** X21. In exact arithmetic, with a positive thrust command, no desired
    horizontal acceleration, a body Z axis that is vertical
    (R(0,2) = R(1,2) = 0) and a tilt limit whose sine is not negative,
    RollPitchControl asks for no roll and no pitch rate. *)
Theorem RollPitchControl_level
    {Quat : Type} {QO : QuaternionOps R Quat} (this : QuadControl R Quat)
    (accelCmd : V3F R) (attitude : Quat) (collThrustCmd : R) :
  (0 < collThrustCmd)%R ->
  x accelCmd = 0%R -> y accelCmd = 0%R ->
  RotationMatrix_IwrtB attitude 0%nat 2%nat = 0%R ->
  RotationMatrix_IwrtB attitude 1%nat 2%nat = 0%R ->
  (0 <= sin (maxTiltAngle this))%R ->
  RollPitchControl this accelCmd attitude collThrustCmd = mkV3F 0%R 0%R 0%R.
Proof.
  intros Hpos Hx Hy H02 H12 Hs. unfold RollPitchControl.
  change (flt (ofZ 0) collThrustCmd) with (Exact.Rltb 0%R collThrustCmd).
  rewrite (proj2 (ExactOrder.Rltb_true _ _) Hpos).
  rewrite Hx, Hy, H02, H12. cbn [fdiv fneg fmul fsub ofZ Exact.arithR].
  replace (0 / (- collThrustCmd / mass this))%R with 0%R by (unfold Rdiv; ring).
  rewrite CONSTRAIN_inside by lra.
  f_equal; unfold Rdiv; ring.
Qed.

(** The scenario vehicle, level, with a thrust of 5 N. *)
Lemma RollPitchControl_level_witness :
  RollPitchControl (vehicle (F:=R)) (mkV3F 0 0 0)%R level 5%R
  = mkV3F 0%R 0%R 0%R.
Proof.
  apply RollPitchControl_level; try reflexivity; try lra.
  change (0 <= Rtrigo_def.sin (7 / 10))%R.
  pose proof PI2_3_2. apply sin_ge_0; lra.
Defined.

(** ** A tick in hover *)

Section ExactHover.
Context {Quat : Type} {QO : QuaternionOps R Quat}.
Variable this : QuadControl R Quat.
Local Open Scope R_scope.




End ExactHover.



(** ** The mixer without a moment, in single precision *)

(** X24. In single precision, when the moment arm L / sqrt 2 and the
    torque coefficient kappa are nonzero numbers and the thrust command T
    is not a zero, GenerateMotorCommands with a zero moment returns
    CONSTRAIN(T / 4, minMotorThrust, maxMotorThrust) on each motor: no
    rounding occurs in the sums, T / 4 is rounded once. *)
Theorem mixer_no_moment_single_precision
    {Quat : Type} (this : QuadControl Binary32.float32 Quat)
    (collThrustCmd : Binary32.float32) (i : nat) :
  Binary32.is_nonzero (fdiv (L this) (sqrtf (ofZ 2))) = true ->
  Binary32.is_nonzero (kappa this) = true ->
  Binary32.is_zero collThrustCmd = false ->
  desiredThrustsN (GenerateMotorCommands this collThrustCmd V3F_zero) i
  = CONSTRAIN (fdiv collThrustCmd (ofZ 4))
      (minMotorThrust this) (maxMotorThrust this).
Proof.
  intros Hl Hk Ht.
  pose proof (fun j =>
    binary32_mix_no_moment this collThrustCmd j Hl Hk Ht)
    as Hmix.
  unfold GenerateMotorCommands.
  destruct i as [|[|[|i]]]; cbn [desiredThrustsN thrust0 thrust1 thrust2 thrust3].
  - now rewrite <- (Hmix 0%nat).
  - now rewrite <- (Hmix 1%nat).
  - now rewrite <- (Hmix 2%nat).
  - now rewrite <- (Hmix 3%nat).
Qed.

(** The scenario vehicle asked for 2.7 N: the float nearest to 0.675 N
    on the front right motor. *)
Lemma mixer_no_moment_single_precision_witness :
  desiredThrustsN
    (GenerateMotorCommands (vehicle (F:=Binary32.float32)) (dec 27 10) V3F_zero) 1
  = dec 675 1000.
Proof.
  refine (eq_trans
            (mixer_no_moment_single_precision (vehicle (F:=Binary32.float32))
               (dec 27 10) 1 _ _ _) _);
    vm_compute; reflexivity.
Defined.
